(** * mika: peer accounting, compact peer lists, whitelist and scrape

    A shallow embedding of [tracker/peer.go] (the [Peer] record and its
    methods, [MakeCompactPeers], [MakePeer], [IsValidClient]) and of the
    HTTP [scrape] handler, followed by the properties established for them.

    Conventions.  Go's fixed-width integers are values of [Z]; every
    conversion and every operation that can wrap is written with the
    matching [to_uintN]/[to_intN].  Byte slices are lists of [Z] in
    [0, 256); the nil slice is the empty list.  [float64] is Rocq's
    primitive binary64 float.  Methods that mutate their receiver return the
    new receiver; the per-peer lock is not represented (one call at a time).
    Calls to the loggers leave no mark on the program's state or results
    and are not represented. *)

From Stdlib Require Import ZArith Lia Bool List String Ascii.
From Stdlib Require Import PrimFloat FloatOps SpecFloat FloatAxioms.
From stdpp Require Import base option list strings pretty sorting gmap.

Local Open Scope Z_scope.

(** ** Fixed-width integers *)

Definition to_uint64 (z : Z) : Z := z mod 2 ^ 64.
Definition to_uint32 (z : Z) : Z := z mod 2 ^ 32.
Definition to_int32 (z : Z) : Z := (z + 2 ^ 31) mod 2 ^ 32 - 2 ^ 31.
Definition to_byte (z : Z) : Z := z mod 2 ^ 8.

(** ** Package [conf]: the fields of the global [conf.Config] read by the tracker.

    The declaration is in a file that is not part of the sources at hand, so
    the record lists the three fields [peer.go] reads.  [HNRMinBytes] is
    compared with a [uint64] without conversion, hence is a [uint64];
    [AnnInterval] and [HNRThreshold] are integers that the code converts
    explicitly. *)
Module conf.
Record Config := {
  AnnInterval : Z;
  HNRMinBytes : Z;
  HNRThreshold : Z
}.
End conf.

(** ** Package [util]

    [util.EstSpeed] lives outside the sources at hand; the tracker code is
    parametric in it.  [util.Unixtime] returns an [int32] clock reading,
    which the embedding receives as an argument at each call site. *)
Module util.
Class Lib := { EstSpeed : Z -> Z -> Z -> float }.

Definition float64_of_Z (z : Z) : float :=
  SF2Prim (binary_normalize prec emax z 0 false).

(** Modelled from the spec: [util.EstSpeed] is not in the sources; the
    specification gives [EstimateSpeed(last, current, delta)] as zero when
    the elapsed time is not positive and [delta / elapsed] otherwise. *)
Definition EstimateSpeed (last cur delta : Z) : float :=
  let elapsed := to_int32 (cur - last) in
  if elapsed <=? 0 then 0%float
  else (float64_of_Z delta / float64_of_Z elapsed)%float.

Definition from_spec : Lib := {| EstSpeed := EstimateSpeed |}.
End util.

(** ** Package [net] (Go standard library): the [IP] type

    [To4], [IPv4], the dotted-decimal branch of [ParseIP] and of [String]
    are written out; the textual IPv6 syntax is left as a parameter. *)
Module net.
Definition IP := list Z.

Definition IPv4len : nat := 4.
Definition IPv6len : nat := 16.

Class IPv6Text := {
  parseIPv6 : string -> IP;
  ipv6String : IP -> string
}.

Definition isZeros (p : IP) : bool := forallb (Z.eqb 0) p.

Definition IPv4 (a b c d : Z) : IP :=
  [0; 0; 0; 0; 0; 0; 0; 0; 0; 0; 255; 255; a; b; c; d].

Definition To4 (ip : IP) : IP :=
  if (length ip =? IPv4len)%nat then ip
  else if (length ip =? IPv6len)%nat && isZeros (take 10 ip)
          && (nth 10 ip 0 =? 255) && (nth 11 ip 0 =? 255)
       then take 4 (drop 12 ip)
       else [].

Definition big : Z := 16777215.

Definition is_digit (c : ascii) : bool :=
  let n := Z.of_N (N_of_ascii c) in (48 <=? n) && (n <=? 57).

(** [dtoi]: decimal to integer from the start of [s]; returns the number,
    the unread rest and whether at least one digit was read without
    reaching [big]. *)
Fixpoint dtoi_loop (n : Z) (any : bool) (s : string) : Z * string * bool :=
  match s with
  | String c rest =>
      if is_digit c then
        let n' := n * 10 + (Z.of_N (N_of_ascii c) - 48) in
        if big <=? n' then (0, s, false) else dtoi_loop n' true rest
      else (if any then n else 0, s, any)
  | EmptyString => (if any then n else 0, s, any)
  end.

Definition dtoi (s : string) : Z * string * bool := dtoi_loop 0 false s.

Fixpoint parseIPv4_fields (j : nat) (todo : nat) (s : string) : option (list Z) :=
  match todo with
  | O => match s with EmptyString => Some [] | _ => None end
  | S todo' =>
      match s with
      | EmptyString => None
      | String c rest =>
          let after_dot :=
            if (0 <? j)%nat
            then (if Ascii.eqb c "." then Some rest else None)
            else Some s in
          match after_dot with
          | None => None
          | Some s1 =>
              let '(n, s2, ok) := dtoi s1 in
              if negb ok || (255 <? n) then None
              else option_map (cons n) (parseIPv4_fields (S j) todo' s2)
          end
      end
  end.

Definition parseIPv4 (s : string) : IP :=
  match parseIPv4_fields 0 IPv4len s with
  | Some [a; b; c; d] => IPv4 a b c d
  | _ => []
  end.

Fixpoint ParseIP_scan `{IPv6Text} (s rest : string) : IP :=
  match rest with
  | EmptyString => []
  | String c rest' =>
      if Ascii.eqb c "." then parseIPv4 s
      else if Ascii.eqb c ":" then parseIPv6 s
      else ParseIP_scan s rest'
  end.

Definition ParseIP `{IPv6Text} (s : string) : IP := ParseIP_scan s s.

Definition itod (n : Z) : string := pretty n.

Definition String `{IPv6Text} (ip : IP) : string :=
  match ip with
  | [] => "<nil>"
  | _ =>
      match To4 ip with
      | [a; b; c; d] => itod a +:+ "." +:+ itod b +:+ "." +:+ itod c +:+ "." +:+ itod d
      | _ => if negb (length ip =? IPv6len)%nat then "?" else ipv6String ip
      end
  end.
End net.

(** ** Package [tracker] *)
Module tracker.

(** Modelled from the spec: the event constants ([STARTED], [STOPPED], ...)
    are declared outside the sources at hand; the specification lists the
    events as started, stopped, completed and running/none. *)
Inductive Event := STOPPED | STARTED | COMPLETED | ANNOUNCE.

Definition Event_eqb (a b : Event) : bool :=
  match a, b with
  | STOPPED, STOPPED | STARTED, STARTED
  | COMPLETED, COMPLETED | ANNOUNCE, ANNOUNCE => true
  | _, _ => false
  end.

(** Modelled from the spec: [AnnounceRequest] is declared outside the
    sources at hand; these are the fields [Peer.Update] reads, with the
    types of the [Peer] fields they are stored in. *)
Module AnnounceRequest.
Record t := {
  Downloaded : Z;
  Corrupt : Z;
  Event : tracker.Event;
  IPv4 : net.IP;
  InfoHash : string;
  Left : Z;
  NumWant : Z;
  PeerID : string;
  Port : Z;
  Uploaded : Z
}.
End AnnounceRequest.

Record Peer := {
  SpeedUP : float;
  SpeedDN : float;
  SpeedUPMax : float;
  SpeedDNMax : float;
  Uploaded : Z;
  Downloaded : Z;
  UploadedLast : Z;
  DownloadedLast : Z;
  Corrupt : Z;
  IP : string;
  Port : Z;
  Left : Z;
  Announces : Z;
  TotalTime : Z;
  AnnounceLast : Z;
  AnnounceFirst : Z;
  New : bool;
  PeerID : string;
  Active : bool;
  Username : string;
  UserID : Z;
  TorrentID : Z;
  KeyPeer : string;
  KeyTimer : string
}.

Section Update.
Context `{util.Lib} `{net.IPv6Text}.
Variable Config : conf.Config.

(** [cur_time] is the clock reading taken on entry, [now] the one taken
    for the activity window. *)
Definition Update (peer : Peer) (announce : AnnounceRequest.t)
    (cur_time now : Z) : Peer * (Z * Z) :=
  let announces := to_uint64 (Announces peer + 1) in
  let '(uploaded, downloaded, ul_diff, dl_diff) :=
    if Event_eqb (AnnounceRequest.Event announce) STARTED then
      (AnnounceRequest.Uploaded announce, AnnounceRequest.Downloaded announce, 0, 0)
    else if (AnnounceRequest.Uploaded announce <? Uploaded peer)
            || (AnnounceRequest.Downloaded announce <? Downloaded peer) then
      (AnnounceRequest.Uploaded announce, AnnounceRequest.Downloaded announce, 0, 0)
    else
      let '(uploaded, ul_diff) :=
        if negb (AnnounceRequest.Uploaded announce =? Uploaded peer)
        then (AnnounceRequest.Uploaded announce,
              to_uint64 (AnnounceRequest.Uploaded announce - Uploaded peer))
        else (Uploaded peer, 0) in
      let '(downloaded, dl_diff) :=
        if negb (AnnounceRequest.Downloaded announce =? Downloaded peer)
        then (AnnounceRequest.Downloaded announce,
              to_uint64 (AnnounceRequest.Downloaded announce - Downloaded peer))
        else (Downloaded peer, 0) in
      (uploaded, downloaded, ul_diff, dl_diff) in
  let speed_up := util.EstSpeed (AnnounceLast peer) cur_time ul_diff in
  let speed_dn := util.EstSpeed (AnnounceLast peer) cur_time dl_diff in
  let speed_up_max :=
    if PrimFloat.ltb (SpeedUPMax peer) speed_up then speed_up else SpeedUPMax peer in
  let speed_dn_max :=
    if PrimFloat.ltb (SpeedDNMax peer) speed_dn then speed_dn else SpeedDNMax peer in
  let total_time :=
    if Active peer && (0 <? AnnounceLast peer) then
      let time_diff := to_uint64 (to_int32 (now - AnnounceLast peer)) in
      if time_diff <? to_uint64 (to_uint64 (conf.AnnInterval Config) * 4)
      then to_uint32 (TotalTime peer + to_uint32 time_diff)
      else TotalTime peer
    else TotalTime peer in
  let active :=
    if Event_eqb (AnnounceRequest.Event announce) STOPPED then false else Active peer in
  ({| SpeedUP := speed_up;
      SpeedDN := speed_dn;
      SpeedUPMax := speed_up_max;
      SpeedDNMax := speed_dn_max;
      Uploaded := uploaded;
      Downloaded := downloaded;
      UploadedLast := UploadedLast peer;
      DownloadedLast := DownloadedLast peer;
      Corrupt := AnnounceRequest.Corrupt announce;
      IP := net.String (AnnounceRequest.IPv4 announce);
      Port := AnnounceRequest.Port announce;
      Left := AnnounceRequest.Left announce;
      Announces := announces;
      TotalTime := total_time;
      AnnounceLast := AnnounceLast peer;
      AnnounceFirst := AnnounceFirst peer;
      New := New peer;
      PeerID := AnnounceRequest.PeerID announce;
      Active := active;
      Username := Username peer;
      UserID := UserID peer;
      TorrentID := TorrentID peer;
      KeyPeer := KeyPeer peer;
      KeyTimer := KeyTimer peer |},
   (ul_diff, dl_diff)).

(** Successive announces of one peer, each with its two clock readings;
    the deltas are returned in the order of the announces. *)
Fixpoint UpdateAll (peer : Peer) (announces : list (AnnounceRequest.t * Z * Z))
    : Peer * list (Z * Z) :=
  match announces with
  | [] => (peer, [])
  | (announce, cur_time, now) :: rest =>
      let '(peer', diff) := Update peer announce cur_time now in
      let '(peer'', diffs) := UpdateAll peer' rest in
      (peer'', diff :: diffs)
  end.
End Update.

Definition IsHNR (Config : conf.Config) (peer : Peer) : bool :=
  (conf.HNRMinBytes Config <? Downloaded peer)
  && (0 <? Left peer)
  && (TotalTime peer <? to_uint32 (conf.HNRThreshold Config)).

Definition IsSeeder (peer : Peer) : bool := Left peer =? 0.

(** The struct literal [MakePeer] starts from; [t1] and [t2] are the two
    clock readings it takes. *)
Definition newPeer (torrent_id : Z) (info_hash peer_id : string) (t1 t2 : Z) : Peer :=
  {| SpeedUP := 0; SpeedDN := 0; SpeedUPMax := 0; SpeedDNMax := 0;
     Uploaded := 0; Downloaded := 0; UploadedLast := 0; DownloadedLast := 0;
     Corrupt := 0; IP := "127.0.0.1"; Port := 0; Left := 0; Announces := 0;
     TotalTime := 0; AnnounceLast := t2; AnnounceFirst := t1; New := false;
     PeerID := peer_id; Active := false; Username := ""; UserID := 0;
     TorrentID := torrent_id;
     KeyPeer := "t:p:" +:+ info_hash +:+ ":" +:+ peer_id;
     KeyTimer := "t:ptimeout:" +:+ info_hash +:+ ":" +:+ peer_id |}.

Definition SetUserID (peer : Peer) (user_id : Z) (username : string) : Peer :=
  {| SpeedUP := SpeedUP peer; SpeedDN := SpeedDN peer;
     SpeedUPMax := SpeedUPMax peer; SpeedDNMax := SpeedDNMax peer;
     Uploaded := Uploaded peer; Downloaded := Downloaded peer;
     UploadedLast := UploadedLast peer; DownloadedLast := DownloadedLast peer;
     Corrupt := Corrupt peer; IP := IP peer; Port := Port peer; Left := Left peer;
     Announces := Announces peer; TotalTime := TotalTime peer;
     AnnounceLast := AnnounceLast peer; AnnounceFirst := AnnounceFirst peer;
     New := New peer; PeerID := PeerID peer; Active := Active peer;
     Username := username; UserID := user_id; TorrentID := TorrentID peer;
     KeyPeer := KeyPeer peer; KeyTimer := KeyTimer peer |}.

(** [MakeCompactPeers]: the loop body appends to [out_buf]; [continue]
    leaves it as it is.  Writing a nil slice appends nothing. *)
Definition MakeCompactPeers `{net.IPv6Text} (peers : list Peer) (skip_id : string)
    : list Z :=
  fold_left
    (fun out_buf peer =>
       if Port peer <=? 0 then out_buf
       else if String.eqb (PeerID peer) skip_id then out_buf
       else (out_buf ++ net.To4 (net.ParseIP (IP peer)))
              ++ [to_byte (Z.shiftr (Port peer) 8); to_byte (Z.land (Port peer) 255)])
    peers [].

(** Whether the loop of [MakeCompactPeers] writes an entry for the peer. *)
Definition listed (skip_id : string) (peer : Peer) : bool :=
  negb (Port peer <=? 0) && negb (String.eqb (PeerID peer) skip_id).

(** Package variables [err_parse_reply] and [err_cast_reply]. *)
Inductive error := err_parse_reply | err_cast_reply.

(** The two functions of the redigo client [MakePeer] calls:
    [Values] turns a reply into a slice ([None]: the nil slice) or fails;
    [ScanStruct] fills the destination from the slice and may fail, in
    which case the destination holds whatever was filled so far. *)
Class RedisLib := {
  Reply : Type;
  Value : Type;
  Values : Reply -> option (list Value) + unit;
  ScanStruct : list Value -> Peer -> Peer * bool
}.

Definition with_PeerID (peer : Peer) (peer_id : string) : Peer :=
  {| SpeedUP := SpeedUP peer; SpeedDN := SpeedDN peer;
     SpeedUPMax := SpeedUPMax peer; SpeedDNMax := SpeedDNMax peer;
     Uploaded := Uploaded peer; Downloaded := Downloaded peer;
     UploadedLast := UploadedLast peer; DownloadedLast := DownloadedLast peer;
     Corrupt := Corrupt peer; IP := IP peer; Port := Port peer; Left := Left peer;
     Announces := Announces peer; TotalTime := TotalTime peer;
     AnnounceLast := AnnounceLast peer; AnnounceFirst := AnnounceFirst peer;
     New := New peer; PeerID := peer_id; Active := Active peer;
     Username := Username peer; UserID := UserID peer; TorrentID := TorrentID peer;
     KeyPeer := KeyPeer peer; KeyTimer := KeyTimer peer |}.

Definition MakePeer `{RedisLib} (redis_reply : Reply) (torrent_id : Z)
    (info_hash peer_id : string) (t1 t2 : Z) : Peer * option error :=
  let peer := newPeer torrent_id info_hash peer_id t1 t2 in
  match Values redis_reply with
  | inr _ => (peer, Some err_parse_reply)
  | inl None => (peer, None)
  | inl (Some values) =>
      let '(peer, ok) := ScanStruct values peer in
      if ok then (with_PeerID peer peer_id, None)
      else (peer, Some err_cast_reply)
  end.

(** [strings.HasPrefix] of the Go standard library. *)
Definition HasPrefix (s prefix : string) : bool :=
  (String.length prefix <=? String.length s)%nat
  && String.eqb (substring 0 (String.length prefix) s) prefix.

(** Modelled from the spec: the [Tracker] struct is declared outside the
    sources at hand; [Whitelist] is the field [IsValidClient] ranges over,
    the ordered accepted client prefixes. *)
Record Tracker := { Whitelist : list string }.

Fixpoint IsValidClient_range (whitelist : list string) (peer_id : string) : bool :=
  match whitelist with
  | [] => false
  | client_prefix :: rest =>
      if HasPrefix peer_id client_prefix then true
      else IsValidClient_range rest peer_id
  end.

(** The connection argument [r] is not used by the body. *)
Definition IsValidClient {Conn : Type} (t : Tracker) (r : Conn) (peer_id : string) : bool :=
  IsValidClient_range (Whitelist t) peer_id.

(** ** Commands queued on the redis connection

    [r.Send] queues a command on the connection; the connection is the list
    of the commands queued so far.  An argument keeps the Go type of the
    value that was passed. *)
Inductive Arg :=
| AString (s : string)
| AUint64 (n : Z)
| AUint32 (n : Z)
| AInt32 (n : Z)
| AFloat64 (f : float)
| ABool (b : bool).

Record Command := { commandName : string; args : list Arg }.

Definition Send (r : list Command) (commandName : string) (args : list Arg) : list Command :=
  r ++ [{| commandName := commandName; args := args |}].

Definition Sync (peer : Peer) (r : list Command) : list Command :=
  Send r "HMSET"
    [AString (KeyPeer peer);
     AString "ip"; AString (IP peer);
     AString "port"; AUint64 (Port peer);
     AString "left"; AUint64 (Left peer);
     AString "first_announce"; AInt32 (AnnounceFirst peer);
     AString "last_announce"; AInt32 (AnnounceLast peer);
     AString "total_time"; AUint32 (TotalTime peer);
     AString "speed_up"; AFloat64 (SpeedUP peer);
     AString "speed_dn"; AFloat64 (SpeedDN peer);
     AString "speed_up_max"; AFloat64 (SpeedUPMax peer);
     AString "speed_dn_max"; AFloat64 (SpeedDNMax peer);
     AString "active"; ABool (Active peer);
     AString "uploaded"; AUint64 (Uploaded peer);
     AString "downloaded"; AUint64 (Downloaded peer);
     AString "corrupt"; AUint64 (Corrupt peer);
     AString "username"; AString (Username peer);
     AString "user_id"; AUint64 (UserID peer);
     AString "peer_id"; AString (PeerID peer);
     AString "torrent_id"; AUint64 (TorrentID peer)].

(** [fmt.Sprintf] with the verb %d prints the decimal numeral. *)
Definition AddHNR (peer : Peer) (r : list Command) (torrent_id : Z) : list Command :=
  Send r "SADD" [AString ("t:u:hnr:" +:+ pretty (UserID peer)); AUint64 torrent_id].

(** The field/value pairs of an [HMSET] command, after its key. *)
Fixpoint pairs (l : list Arg) : list (Arg * Arg) :=
  match l with
  | name :: value :: rest => (name, value) :: pairs rest
  | _ => []
  end.

Definition hmset_key (c : Command) : option Arg := head (args c).
Definition hmset_pairs (c : Command) : list (Arg * Arg) := pairs (tail (args c)).

End tracker.

(** ** Package [model]: infohashes, torrents and swarms

    Declared outside the sources at hand; [scrape] uses them through the
    operations below and is parametric in them. *)
Module model.
Class Lib := {
  InfoHash : Type;
  InfoHashFromString : string -> InfoHash;
  InfoHash_String : InfoHash -> string;
  Torrent : Type;
  TotalCompleted : Torrent -> Z;
  Swarm : Type;
  Counts : Swarm -> Z * Z
}.
End model.

(** ** Package [bencode]: the values a [bencode.Dict] holds *)
Module bencode.
#[warnings="-register-all"] Inductive Value :=
| Int (z : Z)
| Str (s : string)
| Dict (d : gmap string Value).
End bencode.

(** ** Package [http]: the scrape handler

    The handler is a program over the calls it makes on its surroundings:
    the pre-flight checks, the torrent and peer stores of the tracker, the
    bencode encoder and the response writers.  A world answers the calls;
    running the handler threads the world through them and records them in
    order. *)
Module http.

(** Modelled from the spec: [Query], the error codes and
    [queryStringParser] are declared outside the sources at hand.  A parsed
    scrape query carries the ordered sequence of requested infohash
    strings; the parser fails ([None]) on an unparseable query. *)
Record Query := { InfoHashes : list string }.

Class Decls := {
  errCode : Type;
  msgMalformedRequest : errCode;
  queryStringParser : string -> option Query
}.

Definition StatusOK : Z := 200.

Section Handler.
Context `{model.Lib} `{Decls}.

Inductive Action :=
| PreFlightChecks
| Oops (msg : errCode)
| TorrentsGet (ih : model.InfoHash)
| PeersGetN (ih : model.InfoHash) (limit : Z)
| Encode (resp : gmap string bencode.Value)
| CString (code : Z) (body : string).

(** What a call returns; an [error] return is [None], and of the two
    results of [preFlightChecks] only the validity flag is used. *)
Definition result (a : Action) : Type :=
  match a with
  | PreFlightChecks => bool
  | TorrentsGet _ => option model.Torrent
  | PeersGetN _ _ => option model.Swarm
  | Encode _ => option string
  | Oops _ | CString _ _ => unit
  end.

Inductive Handler (T : Type) :=
| Ret (x : T)
| Act (a : Action) (k : result a -> Handler T).
Arguments Ret {T} x.
Arguments Act {T} a k.

Fixpoint bind {A B} (f : A -> Handler B) (m : Handler A) : Handler B :=
  match m with
  | Ret x => f x
  | Act a k => Act a (fun r => bind f (k r))
  end.

#[local] Instance Handler_bind : MBind Handler := @bind.
#[local] Instance Handler_ret : MRet Handler := @Ret.

Definition call (a : Action) : Handler (result a) := Act a Ret.

(** The body of the loop over [q.InfoHashes]; [continue] goes on with
    [resp] as it is. *)
Fixpoint scrape_range (infoHashes : list string) (resp : gmap string bencode.Value)
    : Handler (gmap string bencode.Value) :=
  match infoHashes with
  | [] => Ret resp
  | ihStr :: rest =>
      let ih := model.InfoHashFromString ihStr in
      torrent ← call (TorrentsGet ih);
      match torrent with
      | None => scrape_range rest resp
      | Some torrent =>
          peers ← call (PeersGetN ih 100);
          match peers with
          | None => scrape_range rest resp
          | Some peers =>
              let '(seeders, leechers) := model.Counts peers in
              scrape_range rest
                (<[model.InfoHash_String ih :=
                     bencode.Dict
                       (<["complete" := bencode.Int seeders]>
                          (<["downloaded" := bencode.Int (model.TotalCompleted torrent)]>
                             (<["incomplete" := bencode.Int leechers]> ∅)))]> resp)
          end
      end
  end.

(** [scrape]; [RequestURI] is [c.Request.RequestURI]. *)
Definition scrape (RequestURI : string) : Handler unit :=
  valid ← call PreFlightChecks;
  if negb valid then Ret tt
  else
    match queryStringParser RequestURI with
    | None => call (Oops msgMalformedRequest)
    | Some q =>
        if (length (InfoHashes q) =? 0)%nat then call (Oops msgMalformedRequest)
        else
          resp ← scrape_range (InfoHashes q) ∅;
          encoded ← call (Encode resp);
          match encoded with
          | None => Ret tt
          | Some encoded => call (CString StatusOK encoded)
          end
    end.

(** A world of type [W] answers each call and moves to its next state. *)
Definition World (W : Type) := forall a : Action, W -> result a * W.

Fixpoint run {W T} (world : World W) (m : Handler T) (w : W) : T * W * list Action :=
  match m with
  | Ret x => (x, w, [])
  | Act a k =>
      let '(r, w1) := world a w in
      let '(x, w2, calls) := run world (k r) w1 in
      (x, w2, a :: calls)
  end.

Definition is_lookup (a : Action) : bool :=
  match a with
  | TorrentsGet _ | PeersGetN _ _ => true
  | _ => false
  end.
Definition is_encode (a : Action) : bool :=
  match a with
  | Encode _ => true
  | _ => false
  end.

(** The key under which [scrape] files a requested infohash string. *)
Definition scrape_key (ihStr : string) : string :=
  model.InfoHash_String (model.InfoHashFromString ihStr).

(** Whether both store lookups succeed for a requested infohash string,
    given what the stores answer. *)
Definition resolves (torrents : model.InfoHash -> option model.Torrent)
    (peers : model.InfoHash -> option model.Swarm) (ihStr : string) : bool :=
  match torrents (model.InfoHashFromString ihStr),
        peers (model.InfoHashFromString ihStr) with
  | Some _, Some _ => true
  | _, _ => false
  end.
(** The dictionary [scrape] stores for a torrent and the peers fetched for
    it. *)
Definition files (torrent : model.Torrent) (swarm : model.Swarm) : gmap string bencode.Value :=
  <["complete" := bencode.Int (fst (model.Counts swarm))]>
    (<["downloaded" := bencode.Int (model.TotalCompleted torrent)]>
       (<["incomplete" := bencode.Int (snd (model.Counts swarm))]> ∅)).

(** What the loop of [scrape] leaves in [resp], as a function of the
    answers of the stores. *)
Fixpoint scrape_fold (torrents : model.InfoHash -> option model.Torrent)
    (peers : model.InfoHash -> option model.Swarm)
    (infoHashes : list string) (resp : gmap string bencode.Value)
    : gmap string bencode.Value :=
  match infoHashes with
  | [] => resp
  | ihStr :: rest =>
      match torrents (model.InfoHashFromString ihStr),
            peers (model.InfoHashFromString ihStr) with
      | Some torrent, Some swarm =>
          scrape_fold torrents peers rest (<[scrape_key ihStr := bencode.Dict (files torrent swarm)]> resp)
      | _, _ => scrape_fold torrents peers rest resp
      end
  end.

End Handler.

Arguments Ret {_ _ T} x.
Arguments Act {_ _ T} a k.
End http.

(** * Values within the range of their Go type *)

Definition uint64_range (z : Z) : Prop := 0 <= z < 2 ^ 64.
Definition uint32_range (z : Z) : Prop := 0 <= z < 2 ^ 32.
Definition int32_range (z : Z) : Prop := - 2 ^ 31 <= z < 2 ^ 31.

Record Peer_in_range (peer : tracker.Peer) : Prop := {
  Uploaded_range : uint64_range (tracker.Uploaded peer);
  Downloaded_range : uint64_range (tracker.Downloaded peer);
  Corrupt_range : uint64_range (tracker.Corrupt peer);
  Port_range : uint64_range (tracker.Port peer);
  Left_range : uint64_range (tracker.Left peer);
  Announces_range : uint64_range (tracker.Announces peer);
  TotalTime_range : uint32_range (tracker.TotalTime peer);
  AnnounceLast_range : int32_range (tracker.AnnounceLast peer);
  AnnounceFirst_range : int32_range (tracker.AnnounceFirst peer);
  UserID_range : uint64_range (tracker.UserID peer);
  TorrentID_range : uint64_range (tracker.TorrentID peer)
}.

Record Announce_in_range (announce : tracker.AnnounceRequest.t) : Prop := {
  announce_Uploaded_range : uint64_range (tracker.AnnounceRequest.Uploaded announce);
  announce_Downloaded_range : uint64_range (tracker.AnnounceRequest.Downloaded announce);
  announce_Corrupt_range : uint64_range (tracker.AnnounceRequest.Corrupt announce);
  announce_Port_range : uint64_range (tracker.AnnounceRequest.Port announce);
  announce_Left_range : uint64_range (tracker.AnnounceRequest.Left announce)
}.

(** A run of announces that never restarts the baseline: no started event,
    and each reports counters (within [uint64]) at least as large as the
    ones stored before it, beginning with [up] and [down]. *)
Fixpoint steady (up down : Z) (announces : list (tracker.AnnounceRequest.t * Z * Z)) : Prop :=
  match announces with
  | [] => True
  | (announce, _, _) :: rest =>
      tracker.AnnounceRequest.Event announce <> tracker.STARTED
      /\ up <= tracker.AnnounceRequest.Uploaded announce < 2 ^ 64
      /\ down <= tracker.AnnounceRequest.Downloaded announce < 2 ^ 64
      /\ steady (tracker.AnnounceRequest.Uploaded announce)
                (tracker.AnnounceRequest.Downloaded announce) rest
  end.

Definition sumZ (l : list Z) : Z := fold_right Z.add 0 l.

(** The six bytes of a compact entry, as arithmetic on the address and the
    port: the IPv4 form of the stored address, then the port in big-endian
    order. *)
Definition compact_entry `{net.IPv6Text} (peer : tracker.Peer) : list Z :=
  net.To4 (net.ParseIP (tracker.IP peer))
  ++ [(tracker.Port peer / 256) mod 256; tracker.Port peer mod 256].

Fixpoint all_digits (s : string) : bool :=
  match s with
  | EmptyString => true
  | String c rest => net.is_digit c && all_digits rest
  end.

(** What the round trip through text needs of one octet [k]: its decimal
    numeral is a non-empty string of digits that [dtoi] reads back. *)
Definition octet_ok (k : nat) : bool :=
  let n := Z.of_nat k in
  all_digits (net.itod n)
  && negb (String.eqb (net.itod n) EmptyString)
  && (let '(v, rest, ok) := net.dtoi (net.itod n) in
      (v =? n) && String.eqb rest EmptyString && ok).

Definition is_torrents_get `{model.Lib} `{http.Decls} (a : http.Action) : bool :=
  match a with
  | http.TorrentsGet _ => true
  | _ => false
  end.

(** Every [Peers.GetN] among the calls asks for at most 100 peers. *)
Definition limit_100 `{model.Lib} `{http.Decls} (a : http.Action) : Prop :=
  match a with
  | http.PeersGetN _ limit => limit = 100
  | _ => True
  end.

(** A redis client for the examples: a reply is an error ([None]) or a list
    of field/value texts; scanning reads the numeric fields it knows and
    fails on a value that is not a numeral. *)
Definition scan_field (field : string * string) (acc : tracker.Peer * bool) : tracker.Peer * bool :=
  let '(peer, ok) := acc in
  let '(v, rest, read) := net.dtoi (snd field) in
  if String.eqb (fst field) "user_id" then
    if read && String.eqb rest EmptyString
    then (tracker.SetUserID peer v (tracker.Username peer), ok)
    else (peer, false)
  else (peer, ok).

Definition redis0 : tracker.RedisLib :=
  {| tracker.Reply := option (list (string * string));
     tracker.Value := string * string;
     tracker.Values := fun reply =>
       match reply with
       | None => inr tt
       | Some values => inl (Some values)
       end;
     tracker.ScanStruct := fun values peer => fold_right scan_field (peer, true) values |}.

(** * Concrete surroundings used by the examples *)

Import tracker.

(** No textual IPv6 support: every text with a colon is rejected. *)
Definition v4only : net.IPv6Text :=
  {| net.parseIPv6 := fun _ => []; net.ipv6String := fun _ => "?" |}.

Definition cfg0 : conf.Config :=
  {| conf.AnnInterval := 1800; conf.HNRMinBytes := 1048576; conf.HNRThreshold := 86400 |}.

Definition announce0 (ev : Event) (ip : net.IP) (up down left : Z) : AnnounceRequest.t :=
  {| AnnounceRequest.Downloaded := down;
     AnnounceRequest.Corrupt := 0;
     AnnounceRequest.Event := ev;
     AnnounceRequest.IPv4 := ip;
     AnnounceRequest.InfoHash := "aaaaaaaaaaaaaaaaaaaa";
     AnnounceRequest.Left := left;
     AnnounceRequest.NumWant := 30;
     AnnounceRequest.PeerID := "-AZ2060-000000000001";
     AnnounceRequest.Port := 6881;
     AnnounceRequest.Uploaded := up |}.

Definition fresh0 : Peer :=
  newPeer 7 "aaaaaaaaaaaaaaaaaaaa" "-AZ2060-000000000001" 1000 1000.

Definition Update0 := @Update util.from_spec v4only cfg0.
Definition UpdateAll0 := @UpdateAll util.from_spec v4only cfg0.

(** A leecher that has downloaded exactly [HNRMinBytes cfg0]. *)
Definition at_minimum : Peer :=
  fst (Update0 fresh0 (announce0 STARTED [10; 0; 0; 1] 0 1048576 5000) 1200 1200).

(** The same peer once it is active, as its caller marks it. *)
Definition active0 : Peer :=
  {| SpeedUP := SpeedUP at_minimum; SpeedDN := SpeedDN at_minimum;
     SpeedUPMax := SpeedUPMax at_minimum; SpeedDNMax := SpeedDNMax at_minimum;
     Uploaded := 500; Downloaded := Downloaded at_minimum;
     UploadedLast := 0; DownloadedLast := 0;
     Corrupt := 0; IP := IP at_minimum; Port := Port at_minimum; Left := Left at_minimum;
     Announces := Announces at_minimum; TotalTime := TotalTime at_minimum;
     AnnounceLast := 1200; AnnounceFirst := 1000;
     New := false; PeerID := PeerID at_minimum; Active := true;
     Username := "alice"; UserID := 42; TorrentID := 7;
     KeyPeer := KeyPeer at_minimum; KeyTimer := KeyTimer at_minimum |}.

(** ** A concrete tracker for the scrape examples *)

Import http.

Definition hex_digit (n : Z) : string := substring (Z.to_nat n) 1 "0123456789abcdef".

Definition hex_byte (c : ascii) : string :=
  let n := Z.of_N (N_of_ascii c) in hex_digit (n / 16) +:+ hex_digit (n mod 16).

Fixpoint hex (s : string) : string :=
  match s with
  | EmptyString => EmptyString
  | String c rest => hex_byte c +:+ hex rest
  end.

Fixpoint copy_bytes (n : nat) (s : string) : string :=
  match n with
  | O => EmptyString
  | S n' =>
      match s with
      | EmptyString => String Ascii.zero (copy_bytes n' EmptyString)
      | String c rest => String c (copy_bytes n' rest)
      end
  end.

Record Torrent0 := { completed : Z }.

(** Modelled from the spec: an infohash is a fixed 20-byte identifier whose
    canonical string form is lowercase hexadecimal; a swarm's counts are its
    seeders ([left = 0]) and its leechers. *)
Definition model0 : model.Lib :=
  {| model.InfoHash := string;
     model.InfoHashFromString := copy_bytes 20;
     model.InfoHash_String := hex;
     model.Torrent := Torrent0;
     model.TotalCompleted := completed;
     model.Swarm := list Peer;
     model.Counts := fun swarm =>
       (Z.of_nat (length (List.filter IsSeeder swarm)),
        Z.of_nat (length (List.filter (fun p => negb (IsSeeder p)) swarm))) |}.

Fixpoint split_on (sep : ascii) (s cur : string) : list string :=
  match s with
  | EmptyString => [cur]
  | String c rest =>
      if Ascii.eqb c sep then cur :: split_on sep rest EmptyString
      else split_on sep rest (cur +:+ String c EmptyString)
  end.

Definition info_hash_param (param : string) : option string :=
  if HasPrefix param "info_hash="
  then Some (substring 10 (String.length param - 10) param)
  else None.

(** A query-string parser for the examples: the [info_hash] parameters after
    the question mark, in order, without percent-decoding. *)
Definition queryStringParser0 (uri : string) : option Query :=
  match split_on "?" uri EmptyString with
  | [_] => Some {| InfoHashes := [] |}
  | [_; query] =>
      Some {| InfoHashes := omap info_hash_param (split_on "&" query EmptyString) |}
  | _ => None
  end.

Definition decls0 : Decls :=
  {| errCode := Z; msgMalformedRequest := 901; queryStringParser := queryStringParser0 |}.

Record Registry := {
  reg_valid : bool;
  reg_torrents : gmap string Torrent0;
  reg_swarms : gmap string (list Peer)
}.

Inductive Written :=
| Failure (msg : Z)
| Body (code : Z) (body : string).

Definition key_le (a b : string * bencode.Value) : Prop :=
  Is_true (String.leb (fst a) (fst b)).

#[local] Instance key_le_dec a b : Decision (key_le a b).
Proof. unfold key_le. apply _. Defined.

Fixpoint encode (depth : nat) (v : bencode.Value) : string :=
  match depth with
  | O => EmptyString
  | S depth' =>
      match v with
      | bencode.Int z => "i" +:+ pretty z +:+ "e"
      | bencode.Str s => pretty (String.length s) +:+ ":" +:+ s
      | bencode.Dict d =>
          "d" +:+ fold_right
                    (fun kv acc =>
                       encode depth' (bencode.Str (fst kv)) +:+ encode depth' (snd kv) +:+ acc)
                    "e" (merge_sort key_le (map_to_list d))
      end
  end.

(** The world of the examples: a fixed registry answers the lookups, the
    state is what has been written to the client. *)
Definition world0 (reg : Registry) : @World model0 decls0 (list Written) :=
  fun a =>
    match a as a' return list Written -> @result model0 decls0 a' * list Written with
    | PreFlightChecks => fun w => (reg_valid reg, w)
    | Oops msg => fun w => (tt, w ++ [Failure msg])
    | TorrentsGet ih => fun w => (reg_torrents reg !! ih, w)
    | PeersGetN ih limit => fun w => (take (Z.to_nat limit) <$> reg_swarms reg !! ih, w)
    | Encode resp => fun w => (Some (encode 3 (bencode.Dict resp)), w)
    | CString code body => fun w => (tt, w ++ [Body code body])
    end.

Definition ihA : string := "AAAAAAAAAAAAAAAAAAAA".
Definition ihB : string := "BBBBBBBBBBBBBBBBBBBB".
Definition ihC : string := "CCCCCCCCCCCCCCCCCCCC".

Definition seeder0 : Peer :=
  fst (Update0 fresh0 (announce0 STARTED [10; 0; 0; 2] 0 0 0) 1200 1200).

(** Torrents A and B are registered and have swarms; C is unknown. *)
Definition reg0 : Registry :=
  {| reg_valid := true;
     reg_torrents := <[ihA := {| completed := 12 |}]> (<[ihB := {| completed := 3 |}]> ∅);
     reg_swarms := <[ihA := [seeder0; at_minimum]]> (<[ihB := [at_minimum]]> ∅) |}.

(** Torrents A and B are registered, but only A has a swarm. *)
Definition reg1 : Registry :=
  {| reg_valid := true;
     reg_torrents := <[ihA := {| completed := 12 |}]> (<[ihB := {| completed := 3 |}]> ∅);
     reg_swarms := <[ihA := [seeder0; at_minimum]]> ∅ |}.

Definition uri3 : string :=
  "/scrape?info_hash=AAAAAAAAAAAAAAAAAAAA&info_hash=BBBBBBBBBBBBBBBBBBBB&info_hash=CCCCCCCCCCCCCCCCCCCC".

(** The infohashes of [uri3] in another order, with A repeated. *)
Definition uri4 : string :=
  "/scrape?info_hash=BBBBBBBBBBBBBBBBBBBB&info_hash=AAAAAAAAAAAAAAAAAAAA&info_hash=CCCCCCCCCCCCCCCCCCCC&info_hash=AAAAAAAAAAAAAAAAAAAA".

(** * Properties of [tracker/peer.go] *)

Section PeerProperties.
Context {L : util.Lib} {N : net.IPv6Text}.
Variable Config : conf.Config.

Implicit Types (peer : Peer) (announce : AnnounceRequest.t).

Lemma to_uint64_nonneg z : 0 <= to_uint64 z.
Proof. unfold to_uint64. apply Z.mod_pos_bound. lia. Qed.

Lemma to_uint32_idemp_r a b : to_uint32 (a + to_uint32 b) = to_uint32 (a + b).
Proof. unfold to_uint32. apply Zplus_mod_idemp_r. Qed.

Lemma to_int32_small z : - 2 ^ 31 <= z < 2 ^ 31 -> to_int32 z = z.
Proof. intros Hz. unfold to_int32. rewrite Z.mod_small; lia. Qed.

Lemma to_uint64_small z : 0 <= z < 2 ^ 64 -> to_uint64 z = z.
Proof. intros Hz. unfold to_uint64. apply Z.mod_small; lia. Qed.

Lemma Event_eqb_eq (a b : Event) : Event_eqb a b = true <-> a = b.
Proof. destruct a, b; simpl; split; congruence. Qed.

(** The three ways [Update] treats the transfer counters. *)
Lemma Update_started peer announce cur_time now :
  AnnounceRequest.Event announce = STARTED ->
  Uploaded (fst (Update Config peer announce cur_time now)) = AnnounceRequest.Uploaded announce
  /\ Downloaded (fst (Update Config peer announce cur_time now)) = AnnounceRequest.Downloaded announce
  /\ snd (Update Config peer announce cur_time now) = (0, 0).
Proof. intros Hev. unfold Update. rewrite Hev. simpl. auto. Qed.

Lemma Update_reset peer announce cur_time now :
  AnnounceRequest.Uploaded announce < Uploaded peer
  \/ AnnounceRequest.Downloaded announce < Downloaded peer ->
  Uploaded (fst (Update Config peer announce cur_time now)) = AnnounceRequest.Uploaded announce
  /\ Downloaded (fst (Update Config peer announce cur_time now)) = AnnounceRequest.Downloaded announce
  /\ snd (Update Config peer announce cur_time now) = (0, 0).
Proof.
  intros Hlt. unfold Update.
  destruct (Event_eqb (AnnounceRequest.Event announce) STARTED); [simpl; auto|].
  assert ((AnnounceRequest.Uploaded announce <? Uploaded peer)
          || (AnnounceRequest.Downloaded announce <? Downloaded peer) = true) as ->.
  { apply orb_true_iff. rewrite !Z.ltb_lt. exact Hlt. }
  simpl. auto.
Qed.

Lemma Update_running peer announce cur_time now :
  AnnounceRequest.Event announce <> STARTED ->
  Uploaded peer <= AnnounceRequest.Uploaded announce ->
  Downloaded peer <= AnnounceRequest.Downloaded announce ->
  Uploaded (fst (Update Config peer announce cur_time now)) = AnnounceRequest.Uploaded announce
  /\ Downloaded (fst (Update Config peer announce cur_time now)) = AnnounceRequest.Downloaded announce
  /\ snd (Update Config peer announce cur_time now)
     = (to_uint64 (AnnounceRequest.Uploaded announce - Uploaded peer),
        to_uint64 (AnnounceRequest.Downloaded announce - Downloaded peer)).
Proof.
  intros Hev Hu Hd. unfold Update.
  destruct (Event_eqb (AnnounceRequest.Event announce) STARTED) eqn:E.
  { apply Event_eqb_eq in E. contradiction. }
  assert ((AnnounceRequest.Uploaded announce <? Uploaded peer)
          || (AnnounceRequest.Downloaded announce <? Downloaded peer) = false) as ->.
  { apply orb_false_iff. rewrite !Z.ltb_ge. auto. }
  destruct (Z.eqb_spec (AnnounceRequest.Uploaded announce) (Uploaded peer)) as [->|];
    destruct (Z.eqb_spec (AnnounceRequest.Downloaded announce) (Downloaded peer)) as [->|];
    simpl; rewrite ?Z.sub_diag; auto.
Qed.

Lemma Update_diffs_nonneg peer announce cur_time now :
  0 <= fst (snd (Update Config peer announce cur_time now))
  /\ 0 <= snd (snd (Update Config peer announce cur_time now)).
Proof.
  unfold Update.
  destruct (Event_eqb (AnnounceRequest.Event announce) STARTED); [simpl; lia|].
  destruct ((AnnounceRequest.Uploaded announce <? Uploaded peer)
            || (AnnounceRequest.Downloaded announce <? Downloaded peer)); [simpl; lia|].
  destruct (negb (AnnounceRequest.Uploaded announce =? Uploaded peer));
    destruct (negb (AnnounceRequest.Downloaded announce =? Downloaded peer));
    simpl; split; try lia; apply to_uint64_nonneg.
Qed.

(** C4.  An announce whose uploaded (or downloaded) counter is below the
    stored one makes [Update] store the reported counters as the new
    baseline and return the deltas (0, 0); and for every input whatsoever
    the two returned deltas are non-negative. *)
Theorem Update_restart_resets_baseline peer announce cur_time now :
  (AnnounceRequest.Uploaded announce < Uploaded peer
   \/ AnnounceRequest.Downloaded announce < Downloaded peer ->
   Uploaded (fst (Update Config peer announce cur_time now)) = AnnounceRequest.Uploaded announce
   /\ Downloaded (fst (Update Config peer announce cur_time now)) = AnnounceRequest.Downloaded announce
   /\ snd (Update Config peer announce cur_time now) = (0, 0))
  /\ 0 <= fst (snd (Update Config peer announce cur_time now))
  /\ 0 <= snd (snd (Update Config peer announce cur_time now)).
Proof.
  split.
  - apply Update_reset.
  - apply Update_diffs_nonneg.
Qed.

(** C5.  [Update] adds the time elapsed since the previous announce to
    [TotalTime] (in 32-bit arithmetic) when the peer was active, its
    previous announce timestamp is positive and the elapsed time is below
    four announce intervals; in every other case, in particular when the
    elapsed time reaches that ceiling, [TotalTime] is left as it was.  The
    elapsed time is the plain difference of the two timestamps whenever the
    clock has not gone backwards. *)
Theorem Update_total_time peer announce cur_time now :
  let time_diff := to_uint64 (to_int32 (now - AnnounceLast peer)) in
  let ceiling := to_uint64 (to_uint64 (conf.AnnInterval Config) * 4) in
  let peer' := fst (Update Config peer announce cur_time now) in
  (Active peer = true /\ 0 < AnnounceLast peer /\ time_diff < ceiling ->
   TotalTime peer' = to_uint32 (TotalTime peer + time_diff))
  /\ (Active peer = false \/ AnnounceLast peer <= 0 \/ ceiling <= time_diff ->
      TotalTime peer' = TotalTime peer)
  /\ (AnnounceLast peer <= now < AnnounceLast peer + 2 ^ 31 ->
      time_diff = now - AnnounceLast peer).
Proof.
  intros time_diff ceiling peer'. subst peer'. unfold Update.
  destruct (Event_eqb (AnnounceRequest.Event announce) STARTED);
    [|destruct ((AnnounceRequest.Uploaded announce <? Uploaded peer)
                || (AnnounceRequest.Downloaded announce <? Downloaded peer));
      [|destruct (negb (AnnounceRequest.Uploaded announce =? Uploaded peer));
        destruct (negb (AnnounceRequest.Downloaded announce =? Downloaded peer))]];
    cbn [fst TotalTime]; fold time_diff; fold ceiling.
  all: repeat split.
  all: try (intros (Ha & Hl & Hd); rewrite Ha; apply Z.ltb_lt in Hl, Hd;
            rewrite Hl, Hd; cbn [andb]; apply to_uint32_idemp_r).
  all: try (intros [Ha | [Hl | Hd]];
            [ rewrite Ha; reflexivity
            | apply Z.ltb_ge in Hl; rewrite Hl, andb_false_r; reflexivity
            | apply Z.ltb_ge in Hd; rewrite Hd;
              destruct (Active peer && (0 <? AnnounceLast peer)); reflexivity ]).
  all: intros Hnow; subst time_diff;
       rewrite to_int32_small by lia; apply to_uint64_small; lia.
Qed.

(** C9.  [Update] leaves [AnnounceLast], [AnnounceFirst], [UserID],
    [Username] and [TorrentID] as they were; the speed estimates it stores
    are computed from the unrefreshed [AnnounceLast]. *)
Theorem Update_frame peer announce cur_time now :
  let peer' := fst (Update Config peer announce cur_time now) in
  let diffs := snd (Update Config peer announce cur_time now) in
  AnnounceLast peer' = AnnounceLast peer
  /\ AnnounceFirst peer' = AnnounceFirst peer
  /\ UserID peer' = UserID peer
  /\ Username peer' = Username peer
  /\ TorrentID peer' = TorrentID peer
  /\ SpeedUP peer' = util.EstSpeed (AnnounceLast peer) cur_time (fst diffs)
  /\ SpeedDN peer' = util.EstSpeed (AnnounceLast peer) cur_time (snd diffs).
Proof.
  unfold Update.
  destruct (Event_eqb (AnnounceRequest.Event announce) STARTED);
    [|destruct ((AnnounceRequest.Uploaded announce <? Uploaded peer)
                || (AnnounceRequest.Downloaded announce <? Downloaded peer));
      [|destruct (negb (AnnounceRequest.Uploaded announce =? Uploaded peer));
        destruct (negb (AnnounceRequest.Downloaded announce =? Downloaded peer))]];
    simpl; repeat split; reflexivity.
Qed.

(** C10.  The [Active] flag after [Update] is [false] when the event is
    stopped and the flag before otherwise; hence an inactive peer stays
    inactive whatever the event. *)
Theorem Update_never_activates peer announce cur_time now :
  let peer' := fst (Update Config peer announce cur_time now) in
  (AnnounceRequest.Event announce = STOPPED -> Active peer' = false)
  /\ (AnnounceRequest.Event announce <> STOPPED -> Active peer' = Active peer)
  /\ (Active peer = false -> Active peer' = false).
Proof.
  assert (Active (fst (Update Config peer announce cur_time now))
          = if Event_eqb (AnnounceRequest.Event announce) STOPPED
            then false else Active peer) as Hact.
  { unfold Update.
    destruct (Event_eqb (AnnounceRequest.Event announce) STARTED);
      [|destruct ((AnnounceRequest.Uploaded announce <? Uploaded peer)
                  || (AnnounceRequest.Downloaded announce <? Downloaded peer));
        [|destruct (negb (AnnounceRequest.Uploaded announce =? Uploaded peer));
          destruct (negb (AnnounceRequest.Downloaded announce =? Downloaded peer))]];
      reflexivity. }
  cbv zeta. rewrite Hact.
  destruct (Event_eqb (AnnounceRequest.Event announce) STOPPED) eqn:E.
  - apply Event_eqb_eq in E. repeat split; auto. intros Hne. contradiction.
  - repeat split; auto. intros Hev. apply Event_eqb_eq in Hev. congruence.
Qed.

(** C2 (as amended).  From a freshly created peer, announces reporting
    uploaded = 100 with event started, then 150 (not a started event,
    downloaded not below the first announce's), then 140 make [Update]
    return the uploaded-deltas 0, 50 and 0: the started announce only sets
    the baseline, and the decrease resets it. *)
Theorem Update_deltas_100_150_140 torrent_id info_hash peer_id t1 t2
    a1 a2 a3 c1 n1 c2 n2 c3 n3 :
  AnnounceRequest.Event a1 = STARTED ->
  AnnounceRequest.Uploaded a1 = 100 ->
  AnnounceRequest.Uploaded a2 = 150 ->
  AnnounceRequest.Uploaded a3 = 140 ->
  AnnounceRequest.Event a2 <> STARTED ->
  AnnounceRequest.Downloaded a1 <= AnnounceRequest.Downloaded a2 ->
  map fst (snd (UpdateAll Config (newPeer torrent_id info_hash peer_id t1 t2)
                  [(a1, c1, n1); (a2, c2, n2); (a3, c3, n3)]))
  = [0; 50; 0].
Proof.
  intros Hev1 Hu1 Hu2 Hu3 Hev2 Hd12.
  set (p0 := newPeer torrent_id info_hash peer_id t1 t2).
  cbn [UpdateAll].
  destruct (Update_started p0 a1 c1 n1 Hev1) as (Hup1 & Hdn1 & Hdiff1).
  destruct (Update Config p0 a1 c1 n1) as [p1 d1]. cbn [fst snd] in *. subst d1.
  assert (Uploaded p1 <= AnnounceRequest.Uploaded a2) as Hle by lia.
  assert (Downloaded p1 <= AnnounceRequest.Downloaded a2) as Hle' by lia.
  destruct (Update_running p1 a2 c2 n2 Hev2 Hle Hle') as (Hup2 & _ & Hdiff2).
  destruct (Update Config p1 a2 c2 n2) as [p2 d2]. cbn [fst snd] in *. subst d2.
  assert (AnnounceRequest.Uploaded a3 < Uploaded p2
          \/ AnnounceRequest.Downloaded a3 < Downloaded p2) as Hlt by (left; lia).
  destruct (Update_reset p2 a3 c3 n3 Hlt) as (_ & _ & Hdiff3).
  destruct (Update Config p2 a3 c3 n3) as [p3 d3]. cbn [fst snd] in *. subst d3.
  cbn [map fst snd]. rewrite Hu2, Hup1, Hu1. reflexivity.
Qed.

(** C3.  A peer whose announce carried no address is stored with the IP
    text of the nil address; [MakeCompactPeers] then writes only its two
    port bytes, so the result is not a whole number of 6-byte entries. *)
Theorem MakeCompactPeers_nil_address_two_bytes :
  let peer := fst (Update Config (newPeer 7 "aaaaaaaaaaaaaaaaaaaa" "-AZ2060-000000000001" 1000 1000)
                     (announce0 STARTED [] 0 0 5000) 1200 1200) in
  IP peer = "<nil>"
  /\ MakeCompactPeers [peer] "-AZ2060-000000000002" = [26; 225]
  /\ (length (MakeCompactPeers [peer] "-AZ2060-000000000002") mod 6 = 2)%nat.
Proof. cbv zeta. repeat split. Qed.

End PeerProperties.

(** C1 (as amended).  [IsHNR] holds exactly when the downloaded bytes are
    strictly above [HNRMinBytes], bytes-left is positive and the cumulative
    active seconds are strictly below [HNRThreshold] converted to [uint32]. *)
Theorem IsHNR_iff (Config : conf.Config) (peer : Peer) :
  IsHNR Config peer = true
  <-> conf.HNRMinBytes Config < Downloaded peer
      /\ 0 < Left peer
      /\ TotalTime peer < to_uint32 (conf.HNRThreshold Config).
Proof. unfold IsHNR. rewrite !andb_true_iff, !Z.ltb_lt. tauto. Qed.

(** C1, counterexample to "downloaded >= minimum": a leecher that has
    downloaded exactly [HNRMinBytes] and has no active time satisfies the
    three stated conditions and is not classified. *)
Lemma IsHNR_false_at_minimum :
  IsHNR cfg0 at_minimum = false
  /\ conf.HNRMinBytes cfg0 <= Downloaded at_minimum
  /\ 0 < Left at_minimum
  /\ TotalTime at_minimum < conf.HNRThreshold cfg0.
Proof. vm_compute. repeat split; congruence. Qed.

(** C2, counterexample to the deltas 100, 50, 0: on a fresh peer the first
    (started) announce yields the delta 0, not 100. *)
Lemma Update_started_delta_is_zero :
  map fst (snd (UpdateAll0 fresh0
                  [(announce0 STARTED [10; 0; 0; 1] 100 0 5000, 1200, 1200);
                   (announce0 ANNOUNCE [10; 0; 0; 1] 150 0 5000, 3000, 3000);
                   (announce0 ANNOUNCE [10; 0; 0; 1] 140 0 5000, 4800, 4800)]))
  = [0; 50; 0]
  /\ map fst (snd (UpdateAll0 fresh0
                  [(announce0 STARTED [10; 0; 0; 1] 100 0 5000, 1200, 1200);
                   (announce0 ANNOUNCE [10; 0; 0; 1] 150 0 5000, 3000, 3000);
                   (announce0 ANNOUNCE [10; 0; 0; 1] 140 0 5000, 4800, 4800)]))
     <> [100; 50; 0].
Proof. split; [vm_compute; reflexivity | vm_compute; congruence]. Qed.

(** C2 at a concrete run: started with uploaded 100, then an ordinary
    announce with 150, then a completed announce with 140. *)
Lemma Update_deltas_100_150_140_witness :
  map fst (snd (UpdateAll0 fresh0
                  [(announce0 STARTED [10; 0; 0; 1] 100 0 5000, 1200, 1200);
                   (announce0 ANNOUNCE [10; 0; 0; 1] 150 2048 3000, 3000, 3000);
                   (announce0 COMPLETED [10; 0; 0; 1] 140 5000 0, 4800, 4800)]))
  = [0; 50; 0].
Proof.
  apply (@Update_deltas_100_150_140 util.from_spec v4only cfg0);
    simpl; first [reflexivity | congruence | lia].
Defined.

(** C4 at a concrete peer: stored uploaded 500, reported uploaded 100. *)
Lemma Update_restart_resets_baseline_witness :
  Uploaded (fst (Update0 active0 (announce0 ANNOUNCE [10; 0; 0; 1] 100 2000000 4000) 3000 3000)) = 100
  /\ Downloaded (fst (Update0 active0 (announce0 ANNOUNCE [10; 0; 0; 1] 100 2000000 4000) 3000 3000)) = 2000000
  /\ snd (Update0 active0 (announce0 ANNOUNCE [10; 0; 0; 1] 100 2000000 4000) 3000 3000) = (0, 0).
Proof.
  apply (proj1 (@Update_restart_resets_baseline util.from_spec v4only cfg0 active0
                  (announce0 ANNOUNCE [10; 0; 0; 1] 100 2000000 4000) 3000 3000)).
  left. vm_compute. reflexivity.
Defined.

(** C5 at a concrete peer: active, previous announce at 1200, clock at
    3001, four intervals of 1800 seconds as the ceiling. *)
Lemma Update_total_time_witness :
  TotalTime (fst (Update0 active0 (announce0 ANNOUNCE [10; 0; 0; 1] 600 2000000 4000) 3000 3001))
  = 1801.
Proof.
  apply (proj1 (@Update_total_time util.from_spec v4only cfg0 active0
                  (announce0 ANNOUNCE [10; 0; 0; 1] 600 2000000 4000) 3000 3001)).
  vm_compute. repeat split; congruence.
Defined.

(** C10 at a concrete peer: a fresh (inactive) peer announcing started. *)
Lemma Update_never_activates_witness :
  Active (fst (Update0 fresh0 (announce0 STARTED [10; 0; 0; 1] 0 0 5000) 1200 1200)) = false.
Proof.
  apply (proj2 (proj2 (@Update_never_activates util.from_spec v4only cfg0 fresh0
                         (announce0 STARTED [10; 0; 0; 1] 0 0 5000) 1200 1200))).
  reflexivity.
Defined.

(** ** The compact peer list *)

Section CompactPeers.
Context {N : net.IPv6Text}.

Lemma To4_length (ip : net.IP) : length (net.To4 ip) = 4%nat \/ net.To4 ip = [].
Proof.
  unfold net.To4.
  destruct (Nat.eqb_spec (length ip) net.IPv4len) as [H4|_]; [left; exact H4|].
  destruct (Nat.eqb_spec (length ip) net.IPv6len) as [H16|_]; [|right; reflexivity].
  cbn [andb].
  destruct (net.isZeros (take 10 ip) && (nth 10 ip 0 =? 255) && (nth 11 ip 0 =? 255));
    [left|right; reflexivity].
  rewrite length_take, length_drop, H16. reflexivity.
Qed.

Lemma MakeCompactPeers_acc (peers : list Peer) (skip_id : string) (acc : list Z) :
  length (fold_left
            (fun out_buf peer =>
               if Port peer <=? 0 then out_buf
               else if String.eqb (PeerID peer) skip_id then out_buf
               else (out_buf ++ net.To4 (net.ParseIP (IP peer)))
                      ++ [to_byte (Z.shiftr (Port peer) 8); to_byte (Z.land (Port peer) 255)])
            peers acc)
  = (length acc
     + 6 * length (List.filter (fun p => listed skip_id p
                                    && negb (length (net.To4 (net.ParseIP (IP p))) =? 0)%nat) peers)
     + 2 * length (List.filter (fun p => listed skip_id p
                                    && (length (net.To4 (net.ParseIP (IP p))) =? 0)%nat) peers))%nat.
Proof.
  revert acc. induction peers as [|p peers IH]; intros acc; cbn [fold_left List.filter].
  - cbn [length]. lia.
  - rewrite IH.
    assert (listed skip_id p
            = negb (Port p <=? 0) && negb (String.eqb (PeerID p) skip_id)) as Hl
      by reflexivity.
    rewrite !Hl. clear Hl.
    destruct (Port p <=? 0); cbn [negb andb]; [lia|].
    destruct (String.eqb (PeerID p) skip_id); cbn [negb andb]; [lia|].
    rewrite !length_app. cbn [length].
    destruct (To4_length (net.ParseIP (IP p))) as [H4|H0].
    + rewrite H4. cbn [Nat.eqb negb length]. lia.
    + rewrite H0. cbn [Nat.eqb negb length]. lia.
Qed.

(** Each listed peer contributes six bytes when its stored IP text parses to
    an IPv4 address and two bytes (the port alone) when it does not. *)
Lemma MakeCompactPeers_length (peers : list Peer) (skip_id : string) :
  length (MakeCompactPeers peers skip_id)
  = (6 * length (List.filter (fun p => listed skip_id p
                                  && negb (length (net.To4 (net.ParseIP (IP p))) =? 0)%nat) peers)
     + 2 * length (List.filter (fun p => listed skip_id p
                                    && (length (net.To4 (net.ParseIP (IP p))) =? 0)%nat) peers))%nat.
Proof. unfold MakeCompactPeers. rewrite MakeCompactPeers_acc. reflexivity. Qed.

(** X24.  When every listed peer has an IPv4 address the result is six
    bytes per listed peer. *)
Lemma MakeCompactPeers_length_ipv4 (peers : list Peer) (skip_id : string) :
  (forall p, In p peers -> listed skip_id p = true ->
             net.To4 (net.ParseIP (IP p)) <> []) ->
  length (MakeCompactPeers peers skip_id)
  = (6 * length (List.filter (listed skip_id) peers))%nat.
Proof.
  intros Hv4. rewrite MakeCompactPeers_length.
  assert (forall l, (forall p, In p l -> In p peers) ->
            List.filter (fun p => listed skip_id p
                             && (length (net.To4 (net.ParseIP (IP p))) =? 0)%nat) l = []
            /\ List.filter (fun p => listed skip_id p
                                && negb (length (net.To4 (net.ParseIP (IP p))) =? 0)%nat) l
               = List.filter (listed skip_id) l) as Hfilter.
  { induction l as [|p l IH]; intros Hin; [split; reflexivity|].
    destruct IH as [IH0 IH4]; [intros q Hq; apply Hin; right; exact Hq|].
    cbn [List.filter]. rewrite IH0, IH4.
    destruct (listed skip_id p) eqn:Hl; cbn [andb]; [|split; reflexivity].
    specialize (Hv4 p (Hin p (or_introl eq_refl)) Hl).
    destruct (net.To4 (net.ParseIP (IP p))); [contradiction|].
    cbn [length Nat.eqb negb]. split; reflexivity. }
  destruct (Hfilter peers (fun p Hp => Hp)) as [-> ->]. cbn [length]. lia.
Qed.

End CompactPeers.

(** ** The client whitelist *)

Lemma HasPrefix_iff (s prefix : string) :
  HasPrefix s prefix = true <-> exists rest, s = prefix +:+ rest.
Proof.
  unfold HasPrefix. revert s. induction prefix as [|c prefix IH]; intros s.
  - split; [intros _; exists s; reflexivity|intros _].
    destruct s; reflexivity.
  - destruct s as [|d s].
    + split; [discriminate|intros [rest Hrest]; discriminate].
    + cbn [String.length substring String.eqb Nat.leb].
      change (S (String.length prefix) <=? S (String.length s))%nat
        with (String.length prefix <=? String.length s)%nat.
      split.
      * intros H. apply andb_true_iff in H as [Hlen H].
        destruct (Ascii.eqb_spec d c) as [->|]; [|discriminate].
        destruct (proj1 (IH s)) as [rest ->]; [rewrite Hlen; exact H|].
        exists rest. reflexivity.
      * intros [rest Hrest]. injection Hrest as -> ->.
        rewrite Ascii.eqb_refl.
        apply (proj2 (IH _)). exists rest. reflexivity.
Qed.

(** C8.  [IsValidClient] answers true exactly when some whitelist entry is a
    literal prefix of the peer id: the peer id is that entry followed by
    some rest, byte for byte. *)
Theorem IsValidClient_iff {Conn : Type} (t : Tracker) (r : Conn) (peer_id : string) :
  IsValidClient t r peer_id = true
  <-> exists client_prefix rest,
        In client_prefix (Whitelist t) /\ peer_id = client_prefix +:+ rest.
Proof.
  unfold IsValidClient. induction (Whitelist t) as [|p wl IH]; cbn [IsValidClient_range].
  - split; [discriminate|intros (? & ? & [] & _)].
  - destruct (HasPrefix peer_id p) eqn:Hp.
    + split; [intros _|reflexivity].
      apply HasPrefix_iff in Hp as [rest ->]. exists p, rest. split; [left|]; reflexivity.
    + rewrite IH. split.
      * intros (q & rest & Hin & ->). exists q, rest. split; [right; exact Hin|reflexivity].
      * intros (q & rest & [<-|Hin] & ->).
        -- assert (HasPrefix (p +:+ rest) p = true) as Habs
             by (apply HasPrefix_iff; exists rest; reflexivity).
           congruence.
        -- exists q, rest. split; [exact Hin|reflexivity].
Qed.

(** The two peer ids of the whitelist example, and the absence of case
    folding. *)
Example IsValidClient_examples :
  IsValidClient {| Whitelist := ["-UT"; "-AZ"] |} tt "-AZ2060-000000000001" = true
  /\ IsValidClient {| Whitelist := ["-UT"; "-AZ"] |} tt "-XX0001-000000000001" = false
  /\ IsValidClient {| Whitelist := ["-UT"; "-AZ"] |} tt "-az2060-000000000001" = false.
Proof. repeat split. Qed.

(** * Properties of the scrape handler *)

Section ScrapeProperties.
Context {M : model.Lib} {D : Decls} {W : Type}.
Variable world : World W.

Lemma run_bind {A B} (m : Handler A) (f : A -> Handler B) (w : W) :
  run world (bind f m) w
  = let '(x, w1, calls1) := run world m w in
    let '(y, w2, calls2) := run world (f x) w1 in
    (y, w2, calls1 ++ calls2).
Proof.
  revert w. induction m as [x|a k IH]; intros w.
  - change (run world (f x) w = let '(y, w2, calls2) := run world (f x) w in (y, w2, calls2)).
    destruct (run world (f x) w) as [[y w2] calls2]. reflexivity.
  - change (run world (Act a (fun r => bind f (k r))) w
            = let '(x, w1, calls1) := run world (Act a k) w in
              let '(y, w2, calls2) := run world (f x) w1 in (y, w2, calls1 ++ calls2)).
    cbn [run]. destruct (world a w) as [r w1]. rewrite IH.
    destruct (run world (k r) w1) as [[x w2] calls1].
    destruct (run world (f x) w2) as [[y w3] calls2]. reflexivity.
Qed.

(** C6.  When the pre-flight checks pass and the query parses to an empty
    infohash sequence, [scrape] makes exactly two calls, the pre-flight
    checks and [oops] with [msgMalformedRequest]: no call reaches the
    torrent or peer store, nothing is encoded or written as a success, and
    the world is changed by those two calls only. *)
Theorem scrape_no_infohash_rejected (RequestURI : string) (q : Query) (w : W) :
  fst (world PreFlightChecks w) = true ->
  queryStringParser RequestURI = Some q ->
  InfoHashes q = [] ->
  run world (scrape RequestURI) w
  = (tt,
     snd (world (Oops msgMalformedRequest) (snd (world PreFlightChecks w))),
     [PreFlightChecks; Oops msgMalformedRequest])
  /\ Forall (fun a => is_lookup a = false) (snd (run world (scrape RequestURI) w)).
Proof.
  intros Hvalid Hparse Hempty.
  assert (run world (scrape RequestURI) w
          = (tt, snd (world (Oops msgMalformedRequest) (snd (world PreFlightChecks w))),
             [PreFlightChecks; Oops msgMalformedRequest])) as Hrun.
  { unfold scrape, mbind, Handler_bind, call. cbn [bind run].
    destruct (world PreFlightChecks w) as [valid w1]. cbn [fst snd] in *. subst valid.
    cbn [negb]. rewrite Hparse, Hempty. cbn [length Nat.eqb run].
    destruct (world (Oops msgMalformedRequest) w1) as [[] w2].
    reflexivity. }
  split; [exact Hrun|]. rewrite Hrun. cbn [snd].
  repeat constructor.
Qed.

(** ** The response dictionary

    From here on the stores answer as fixed functions of the infohash:
    [torrents] for [Torrents.Get] and [peers] for [Peers.GetN] with the
    limit 100 that [scrape] uses. *)

Variable torrents : model.InfoHash -> option model.Torrent.
Variable peers : model.InfoHash -> option model.Swarm.
Hypothesis world_torrents : forall ih w, fst (world (TorrentsGet ih) w) = torrents ih.
Hypothesis world_peers : forall ih w, fst (world (PeersGetN ih 100) w) = peers ih.

Lemma run_scrape_range (infoHashes : list string) (resp : gmap string bencode.Value) (w : W) :
  exists w' lookups,
    run world (scrape_range infoHashes resp) w = (scrape_fold torrents peers infoHashes resp, w', lookups)
    /\ Forall (fun a => is_lookup a = true) lookups.
Proof.
  revert resp w. induction infoHashes as [|ihStr rest IH]; intros resp w.
  - exists w, []. split; [reflexivity|constructor].
  - cbn [scrape_range scrape_fold]. unfold mbind, Handler_bind, call. cbn [bind run].
    pose proof (world_torrents (model.InfoHashFromString ihStr) w) as Ht.
    destruct (world (TorrentsGet (model.InfoHashFromString ihStr)) w) as [t w1].
    cbn [fst] in Ht. subst t.
    destruct (torrents (model.InfoHashFromString ihStr)) as [torrent|].
    + cbn [bind run].
      pose proof (world_peers (model.InfoHashFromString ihStr) w1) as Hp.
      destruct (world (PeersGetN (model.InfoHashFromString ihStr) 100) w1) as [p w2].
      cbn [fst] in Hp. subst p.
      destruct (peers (model.InfoHashFromString ihStr)) as [swarm|].
      * unfold files, scrape_key. destruct (model.Counts swarm) as [seeders leechers].
        cbn [fst snd].
        destruct (IH (<[model.InfoHash_String (model.InfoHashFromString ihStr) :=
                          bencode.Dict
                            (<["complete" := bencode.Int seeders]>
                               (<["downloaded" := bencode.Int (model.TotalCompleted torrent)]>
                                  (<["incomplete" := bencode.Int leechers]> ∅)))]> resp) w2)
          as (w' & lookups & -> & Hl).
        eexists _, _. split; [reflexivity|]. repeat constructor. exact Hl.
      * destruct (IH resp w2) as (w' & lookups & -> & Hl).
        eexists _, _. split; [reflexivity|]. repeat constructor. exact Hl.
    + destruct (IH resp w1) as (w' & lookups & -> & Hl).
      eexists _, _. split; [reflexivity|]. repeat constructor. exact Hl.
Qed.

Lemma resolves_true (ihStr : string) :
  resolves torrents peers ihStr = true
  <-> exists torrent swarm,
        torrents (model.InfoHashFromString ihStr) = Some torrent
        /\ peers (model.InfoHashFromString ihStr) = Some swarm.
Proof.
  unfold resolves.
  destruct (torrents (model.InfoHashFromString ihStr)) as [t|];
    destruct (peers (model.InfoHashFromString ihStr)) as [p|]; split;
    try discriminate; try (intros (? & ? & ? & ?); discriminate).
  - intros _. exists t, p. split; reflexivity.
  - reflexivity.
Qed.

Lemma scrape_fold_lookup (infoHashes : list string) (resp : gmap string bencode.Value)
    (k : string) (v : bencode.Value) :
  scrape_fold torrents peers infoHashes resp !! k = Some v ->
  resp !! k = Some v
  \/ exists ihStr torrent swarm,
       In ihStr infoHashes /\ scrape_key ihStr = k
       /\ torrents (model.InfoHashFromString ihStr) = Some torrent
       /\ peers (model.InfoHashFromString ihStr) = Some swarm
       /\ v = bencode.Dict (files torrent swarm).
Proof.
  revert resp. induction infoHashes as [|ihStr rest IH]; intros resp; cbn [scrape_fold].
  - left. assumption.
  - destruct (torrents (model.InfoHashFromString ihStr)) as [torrent|] eqn:Ht;
      [destruct (peers (model.InfoHashFromString ihStr)) as [swarm|] eqn:Hp|].
    + intros Hk. apply IH in Hk as [Hk|(s & t & sw & Hin & Hrest)].
      * destruct (decide (scrape_key ihStr = k)) as [Heq|Hne].
        -- rewrite Heq, lookup_insert_eq in Hk. injection Hk as <-.
           right. exists ihStr, torrent, swarm. repeat split; auto. left; reflexivity.
        -- rewrite lookup_insert_ne in Hk by exact Hne. left. exact Hk.
      * right. exists s, t, sw. split; [right; exact Hin|exact Hrest].
    + intros Hk. apply IH in Hk as [Hk|(s & t & sw & Hin & Hrest)]; [left; exact Hk|].
      right. exists s, t, sw. split; [right; exact Hin|exact Hrest].
    + intros Hk. apply IH in Hk as [Hk|(s & t & sw & Hin & Hrest)]; [left; exact Hk|].
      right. exists s, t, sw. split; [right; exact Hin|exact Hrest].
Qed.

Lemma scrape_fold_is_Some (infoHashes : list string) (resp : gmap string bencode.Value)
    (k : string) :
  is_Some (scrape_fold torrents peers infoHashes resp !! k)
  <-> is_Some (resp !! k)
      \/ exists ihStr, In ihStr infoHashes /\ scrape_key ihStr = k
                       /\ resolves torrents peers ihStr = true.
Proof.
  revert resp. induction infoHashes as [|ihStr rest IH]; intros resp; cbn [scrape_fold].
  - split; [left; assumption|intros [?|(? & [] & _)]; assumption].
  - assert (forall r : gmap string bencode.Value, (is_Some (r !! k) \/ (exists s, In s rest /\ scrape_key s = k
                                             /\ resolves torrents peers s = true))
                      -> resolves torrents peers ihStr = false
                      -> is_Some (r !! k)
                         \/ (exists s, In s (ihStr :: rest) /\ scrape_key s = k
                                       /\ resolves torrents peers s = true)) as Hweak.
    { intros r [Hr|(s & Hin & Hs)] _; [left; exact Hr|].
      right. exists s. split; [right; exact Hin|exact Hs]. }
    assert (forall r : gmap string bencode.Value, is_Some (r !! k)
                      \/ (exists s, In s (ihStr :: rest) /\ scrape_key s = k
                                    /\ resolves torrents peers s = true)
                      -> resolves torrents peers ihStr = false
                      -> is_Some (r !! k)
                         \/ (exists s, In s rest /\ scrape_key s = k
                                       /\ resolves torrents peers s = true)) as Hstrong.
    { intros r [Hr|(s & [<-|Hin] & Hk & Hs)] Hf; [left; exact Hr|congruence|].
      right. exists s. split; [exact Hin|]. split; [exact Hk|exact Hs]. }
    destruct (torrents (model.InfoHashFromString ihStr)) as [torrent|] eqn:Ht;
      [destruct (peers (model.InfoHashFromString ihStr)) as [swarm|] eqn:Hp|].
    + assert (resolves torrents peers ihStr = true) as Hres
        by (unfold resolves; rewrite Ht, Hp; reflexivity).
      rewrite IH. split.
      * intros [Hk|(s & Hin & Hs)].
        -- destruct (decide (scrape_key ihStr = k)) as [Heq|Hne].
           ++ right. exists ihStr. split; [left; reflexivity|]. split; assumption.
           ++ rewrite lookup_insert_ne in Hk by exact Hne. left. exact Hk.
        -- right. exists s. split; [right; exact Hin|exact Hs].
      * intros [Hk|(s & [<-|Hin] & Hkey & Hs)].
        -- left. destruct (decide (scrape_key ihStr = k)) as [Heq|Hne].
           ++ rewrite Heq, lookup_insert_eq. eexists; reflexivity.
           ++ rewrite lookup_insert_ne by exact Hne. exact Hk.
        -- left. rewrite Hkey, lookup_insert_eq. eexists; reflexivity.
        -- right. exists s. split; [exact Hin|]. split; assumption.
    + assert (resolves torrents peers ihStr = false) as Hres
        by (unfold resolves; rewrite Ht, Hp; reflexivity).
      rewrite IH. split; intros Hx; [apply Hweak|apply Hstrong]; assumption.
    + assert (resolves torrents peers ihStr = false) as Hres
        by (unfold resolves; rewrite Ht; reflexivity).
      rewrite IH. split; intros Hx; [apply Hweak|apply Hstrong]; assumption.
Qed.

Lemma scrape_fold_size (infoHashes : list string) (resp : gmap string bencode.Value) :
  NoDup (map scrape_key infoHashes) ->
  (forall ihStr, In ihStr infoHashes -> resp !! scrape_key ihStr = None) ->
  size (scrape_fold torrents peers infoHashes resp)
  = (size resp + length (List.filter (resolves torrents peers) infoHashes))%nat.
Proof.
  revert resp. induction infoHashes as [|ihStr rest IH]; intros resp Hnd Hfresh;
    cbn [scrape_fold List.filter].
  - cbn [length]. lia.
  - cbn [map] in Hnd. apply NoDup_cons in Hnd as [Hnotin Hnd].
    assert (forall s, In s rest -> scrape_key s <> scrape_key ihStr) as Hdiff.
    { intros s Hin Heq. apply Hnotin. rewrite <- Heq.
      apply list_elem_of_In. apply in_map. exact Hin. }
    unfold resolves at 1.
    destruct (torrents (model.InfoHashFromString ihStr)) as [torrent|];
      [destruct (peers (model.InfoHashFromString ihStr)) as [swarm|]|].
    + rewrite IH; [|exact Hnd|].
      * rewrite map_size_insert_None by (apply Hfresh; left; reflexivity).
        cbn [length]. lia.
      * intros s Hin. rewrite lookup_insert_ne by (apply not_eq_sym, Hdiff, Hin).
        apply Hfresh. right. exact Hin.
    + apply IH; [exact Hnd|]. intros s Hin. apply Hfresh. right. exact Hin.
    + apply IH; [exact Hnd|]. intros s Hin. apply Hfresh. right. exact Hin.
Qed.

Lemma files_fields (torrent : model.Torrent) (swarm : model.Swarm) :
  dom (files torrent swarm) = {["complete"; "incomplete"; "downloaded"]}
  /\ files torrent swarm !! "complete" = Some (bencode.Int (fst (model.Counts swarm)))
  /\ files torrent swarm !! "incomplete" = Some (bencode.Int (snd (model.Counts swarm)))
  /\ files torrent swarm !! "downloaded" = Some (bencode.Int (model.TotalCompleted torrent)).
Proof.
  unfold files. split; [|split; [|split]].
  - rewrite !dom_insert_L, dom_empty_L. set_solver.
  - apply lookup_insert_eq.
  - rewrite lookup_insert_ne by discriminate. rewrite lookup_insert_ne by discriminate.
    apply lookup_insert_eq.
  - rewrite lookup_insert_ne by discriminate. apply lookup_insert_eq.
Qed.

(** C7 (as amended).  For a query with at least one infohash that passes
    the pre-flight checks, [scrape] performs its store lookups and then
    hands one dictionary [resp] to the encoder.  [resp] has an entry under
    a key exactly when some requested infohash with that canonical string
    has both its torrent and its peers found; every entry is a dictionary
    with exactly the fields complete, incomplete and downloaded, taken from
    such an infohash; infohashes whose torrent or whose peers are not found
    leave no trace in [resp] and raise no failure; and when the requested
    infohashes have pairwise distinct canonical strings, [resp] has as many
    entries as there are requested infohashes with both lookups
    successful. *)
Theorem scrape_response_entries (RequestURI : string) (q : Query) (w : W) :
  fst (world PreFlightChecks w) = true ->
  queryStringParser RequestURI = Some q ->
  InfoHashes q <> [] ->
  exists resp lookups tail,
    snd (run world (scrape RequestURI) w) = PreFlightChecks :: lookups ++ Encode resp :: tail
    /\ Forall (fun a => is_lookup a = true) lookups
    /\ (tail = [] \/ exists body, tail = [CString StatusOK body])
    /\ (forall k, is_Some (resp !! k)
                  <-> exists ihStr, In ihStr (InfoHashes q) /\ scrape_key ihStr = k
                                    /\ resolves torrents peers ihStr = true)
    /\ (forall k v, resp !! k = Some v ->
         exists ihStr torrent swarm d,
           In ihStr (InfoHashes q) /\ scrape_key ihStr = k
           /\ torrents (model.InfoHashFromString ihStr) = Some torrent
           /\ peers (model.InfoHashFromString ihStr) = Some swarm
           /\ v = bencode.Dict d
           /\ dom d = {["complete"; "incomplete"; "downloaded"]}
           /\ d !! "complete" = Some (bencode.Int (fst (model.Counts swarm)))
           /\ d !! "incomplete" = Some (bencode.Int (snd (model.Counts swarm)))
           /\ d !! "downloaded" = Some (bencode.Int (model.TotalCompleted torrent)))
    /\ (NoDup (map scrape_key (InfoHashes q)) ->
        size resp = length (List.filter (resolves torrents peers) (InfoHashes q))).
Proof.
  intros Hvalid Hparse Hne.
  exists (scrape_fold torrents peers (InfoHashes q) ∅).
  destruct (run_scrape_range (InfoHashes q) ∅ (snd (world PreFlightChecks w)))
    as (w' & lookups & Hrun & Hlookups).
  exists lookups.
  assert (exists tail,
            snd (run world (scrape RequestURI) w)
            = PreFlightChecks :: lookups ++ Encode (scrape_fold torrents peers (InfoHashes q) ∅) :: tail
            /\ (tail = [] \/ exists body, tail = [CString StatusOK body])) as (tail & Htrace & Htail).
  { unfold scrape, mbind, Handler_bind, call. cbn [bind run].
    destruct (world PreFlightChecks w) as [valid w1]. cbn [fst snd] in *. subst valid.
    cbn [negb]. rewrite Hparse.
    destruct (InfoHashes q) as [|ihStr rest] eqn:Hq; [contradiction|].
    cbn [length Nat.eqb]. rewrite run_bind, Hrun. cbn [bind run].
    destruct (world (Encode (scrape_fold torrents peers (ihStr :: rest) ∅)) w') as [[body|] w2].
    - cbn [bind run]. destruct (world (CString StatusOK body) w2) as [[] w3].
      exists [CString StatusOK body]. split; [reflexivity|]. right. exists body. reflexivity.
    - exists []. split; [reflexivity|]. left. reflexivity. }
  exists tail. split; [exact Htrace|]. split; [exact Hlookups|]. split; [exact Htail|].
  split; [|split].
  - intros k. rewrite scrape_fold_is_Some, lookup_empty. split.
    + intros [[? Habs]|Hex]; [discriminate|exact Hex].
    + intros Hex. right. exact Hex.
  - intros k v Hk. apply scrape_fold_lookup in Hk as [Hk|(s & t & sw & Hin & Hkey & Ht & Hp & ->)].
    + rewrite lookup_empty in Hk. discriminate.
    + exists s, t, sw, (files t sw).
      destruct (files_fields t sw) as (Hdom & Hc & Hi & Hd).
      repeat split; assumption.
  - intros Hnd. rewrite scrape_fold_size; [rewrite map_size_empty; reflexivity|exact Hnd|].
    intros s _. apply lookup_empty.
Qed.

End ScrapeProperties.

(** ** The scrape theorems at the concrete tracker *)

(** C6 at the concrete tracker: a scrape without any [info_hash]. *)
Lemma scrape_no_infohash_rejected_witness :
  run (world0 reg0) (scrape "/scrape?passkey=0123") []
  = (tt, [Failure 901], [PreFlightChecks; @Oops model0 decls0 901])
  /\ Forall (fun a => is_lookup a = false)
            (snd (run (world0 reg0) (scrape "/scrape?passkey=0123") [])).
Proof.
  apply (@scrape_no_infohash_rejected model0 decls0 (list Written) (world0 reg0)
           "/scrape?passkey=0123" {| InfoHashes := [] |} []); reflexivity.
Defined.

(** C7 at the concrete tracker: three infohashes are requested, one of
    them unknown, the other two with their peers: two entries. *)
Lemma scrape_response_entries_witness :
  exists resp lookups tail,
    snd (run (world0 reg0) (scrape uri3) []) = PreFlightChecks :: lookups ++ Encode resp :: tail
    /\ length (InfoHashes {| InfoHashes := [ihA; ihB; ihC] |}) = 3%nat
    /\ reg_torrents reg0 !! ihC = None
    /\ size resp = 2%nat.
Proof.
  destruct (@scrape_response_entries model0 decls0 (list Written) (world0 reg0)
              (fun ih => reg_torrents reg0 !! ih)
              (fun ih => take 100 <$> reg_swarms reg0 !! ih)
              (fun ih w => eq_refl) (fun ih w => eq_refl)
              uri3 {| InfoHashes := [ihA; ihB; ihC] |} [] eq_refl eq_refl)
    as (resp & lookups & tail & Htrace & _ & _ & _ & _ & Hsize);
    [discriminate|].
  exists resp, lookups, tail.
  split; [exact Htrace|]. split; [reflexivity|]. split; [reflexivity|].
  rewrite Hsize; [reflexivity|].
  apply (bool_decide_unpack _). vm_compute. exact I.
Defined.

(** C7, counterexample to "one entry per infohash that resolves in the
    torrent registry": torrents A and B both resolve, C is unknown, and the
    response has one entry, not two, because the peers of B cannot be
    fetched. *)
Lemma scrape_omits_torrent_without_peers :
  InfoHashes {| InfoHashes := [ihA; ihB; ihC] |} = [ihA; ihB; ihC]
  /\ queryStringParser0 uri3 = Some {| InfoHashes := [ihA; ihB; ihC] |}
  /\ is_Some (reg_torrents reg1 !! ihA)
  /\ is_Some (reg_torrents reg1 !! ihB)
  /\ reg_torrents reg1 !! ihC = None
  /\ exists resp,
       List.filter is_encode (snd (run (world0 reg1) (scrape uri3) [])) = [Encode resp]
       /\ size resp = 1%nat
       /\ resp !! @scrape_key model0 ihB = None.
Proof.
  split; [reflexivity|]. split; [reflexivity|].
  split; [eexists; reflexivity|]. split; [eexists; reflexivity|]. split; [reflexivity|].
  eexists. split; [vm_compute; reflexivity|]. split; vm_compute; reflexivity.
Qed.

(** * Further properties of [Peer.Update] *)

Section UpdateAccounting.
Context {L : util.Lib} {N : net.IPv6Text}.
Variable Config : conf.Config.

Implicit Types (peer : Peer) (announce : AnnounceRequest.t).

Ltac Update_branches peer announce :=
  unfold Update;
  destruct (Event_eqb (AnnounceRequest.Event announce) STARTED) eqn:Hstarted;
    [|destruct ((AnnounceRequest.Uploaded announce <? Uploaded peer)
                || (AnnounceRequest.Downloaded announce <? Downloaded peer)) eqn:Hless;
      [|destruct (Z.eqb_spec (AnnounceRequest.Uploaded announce) (Uploaded peer)) as [Hup|Hup];
        destruct (Z.eqb_spec (AnnounceRequest.Downloaded announce) (Downloaded peer)) as [Hdn|Hdn]]];
  cbn [negb fst snd].

Lemma Update_fields peer announce cur_time now :
  Uploaded (fst (Update Config peer announce cur_time now)) = AnnounceRequest.Uploaded announce
  /\ Downloaded (fst (Update Config peer announce cur_time now))
     = AnnounceRequest.Downloaded announce
  /\ Left (fst (Update Config peer announce cur_time now)) = AnnounceRequest.Left announce
  /\ Corrupt (fst (Update Config peer announce cur_time now)) = AnnounceRequest.Corrupt announce
  /\ Port (fst (Update Config peer announce cur_time now)) = AnnounceRequest.Port announce
  /\ PeerID (fst (Update Config peer announce cur_time now)) = AnnounceRequest.PeerID announce
  /\ IP (fst (Update Config peer announce cur_time now))
     = net.String (AnnounceRequest.IPv4 announce)
  /\ Announces (fst (Update Config peer announce cur_time now)) = to_uint64 (Announces peer + 1)
  /\ KeyPeer (fst (Update Config peer announce cur_time now)) = KeyPeer peer
  /\ KeyTimer (fst (Update Config peer announce cur_time now)) = KeyTimer peer.
Proof.
  Update_branches peer announce;
    cbn [Uploaded Downloaded Left Corrupt Port PeerID IP Announces KeyPeer KeyTimer];
    repeat split; congruence.
Qed.

(** X1.  Whatever branch [Update] takes, the peer afterwards holds exactly
    the reported uploaded, downloaded, left, corrupt, port and peer id, the
    text of the reported address, and one more announce (in [uint64]); the
    two redis keys of the peer are not touched, even when the peer id
    changes. *)
Theorem Update_stores_reported peer announce cur_time now :
  let peer' := fst (Update Config peer announce cur_time now) in
  Uploaded peer' = AnnounceRequest.Uploaded announce
  /\ Downloaded peer' = AnnounceRequest.Downloaded announce
  /\ Left peer' = AnnounceRequest.Left announce
  /\ Corrupt peer' = AnnounceRequest.Corrupt announce
  /\ Port peer' = AnnounceRequest.Port announce
  /\ PeerID peer' = AnnounceRequest.PeerID announce
  /\ IP peer' = net.String (AnnounceRequest.IPv4 announce)
  /\ Announces peer' = to_uint64 (Announces peer + 1)
  /\ KeyPeer peer' = KeyPeer peer
  /\ KeyTimer peer' = KeyTimer peer.
Proof. exact (Update_fields peer announce cur_time now). Qed.

Lemma Update_diffs peer announce cur_time now :
  snd (Update Config peer announce cur_time now)
  = if Event_eqb (AnnounceRequest.Event announce) STARTED
       || (AnnounceRequest.Uploaded announce <? Uploaded peer)
       || (AnnounceRequest.Downloaded announce <? Downloaded peer)
    then (0, 0)
    else (to_uint64 (AnnounceRequest.Uploaded announce - Uploaded peer),
          to_uint64 (AnnounceRequest.Downloaded announce - Downloaded peer)).
Proof.
  Update_branches peer announce; cbn [orb]; rewrite ?Hless; try reflexivity.
  all: rewrite ?Hup, ?Hdn, ?Z.sub_diag; reflexivity.
Qed.

Lemma Update_fst_counters peer announce cur_time now :
  Uploaded (fst (Update Config peer announce cur_time now)) = AnnounceRequest.Uploaded announce
  /\ Downloaded (fst (Update Config peer announce cur_time now))
     = AnnounceRequest.Downloaded announce.
Proof.
  Update_branches peer announce; cbn [Uploaded Downloaded]; split; congruence.
Qed.

(** X2.  With counters within [uint64], the deltas [Update] returns are the
    exact differences between the reported and the stored counters when the
    announce is not a started event and neither counter went down, and
    (0, 0) otherwise; in particular a delta never exceeds the counter the
    client reported. *)
Theorem Update_deltas_exact peer announce cur_time now :
  uint64_range (Uploaded peer) ->
  uint64_range (Downloaded peer) ->
  uint64_range (AnnounceRequest.Uploaded announce) ->
  uint64_range (AnnounceRequest.Downloaded announce) ->
  (AnnounceRequest.Event announce <> STARTED ->
   Uploaded peer <= AnnounceRequest.Uploaded announce ->
   Downloaded peer <= AnnounceRequest.Downloaded announce ->
   snd (Update Config peer announce cur_time now)
   = (AnnounceRequest.Uploaded announce - Uploaded peer,
      AnnounceRequest.Downloaded announce - Downloaded peer))
  /\ (AnnounceRequest.Event announce = STARTED
      \/ AnnounceRequest.Uploaded announce < Uploaded peer
      \/ AnnounceRequest.Downloaded announce < Downloaded peer ->
      snd (Update Config peer announce cur_time now) = (0, 0))
  /\ 0 <= fst (snd (Update Config peer announce cur_time now))
          <= AnnounceRequest.Uploaded announce
  /\ 0 <= snd (snd (Update Config peer announce cur_time now))
          <= AnnounceRequest.Downloaded announce.
Proof.
  unfold uint64_range. intros HU HD HaU HaD. rewrite Update_diffs.
  destruct (Event_eqb (AnnounceRequest.Event announce) STARTED) eqn:Hev; cbn [orb].
  - apply Event_eqb_eq in Hev. repeat split; cbn [fst snd]; try lia; congruence.
  - assert (AnnounceRequest.Event announce <> STARTED) as Hne
      by (intros Heq; apply Event_eqb_eq in Heq; congruence).
    destruct (Z.ltb_spec (AnnounceRequest.Uploaded announce) (Uploaded peer)); cbn [orb];
      [repeat split; cbn [fst snd]; try lia; reflexivity|].
    destruct (Z.ltb_spec (AnnounceRequest.Downloaded announce) (Downloaded peer));
      [repeat split; cbn [fst snd]; try lia; reflexivity|].
    rewrite !to_uint64_small by lia.
    repeat split; cbn [fst snd]; try lia.
    intros [?|[?|?]]; [contradiction|lia|lia].
Qed.

(** X3.  Over a run of announces that never restarts the baseline, the
    deltas returned by the successive [Update]s add up to the difference
    between the counters stored at the end and those stored at the start:
    nothing is credited twice and nothing is lost. *)
Theorem Update_deltas_telescope peer announces :
  uint64_range (Uploaded peer) ->
  uint64_range (Downloaded peer) ->
  steady (Uploaded peer) (Downloaded peer) announces ->
  sumZ (map fst (snd (UpdateAll Config peer announces)))
  = Uploaded (fst (UpdateAll Config peer announces)) - Uploaded peer
  /\ sumZ (map snd (snd (UpdateAll Config peer announces)))
     = Downloaded (fst (UpdateAll Config peer announces)) - Downloaded peer.
Proof.
  revert peer. induction announces as [|[[announce cur_time] now] rest IH];
    intros peer HU HD Hsteady.
  - cbn. lia.
  - cbn [steady] in Hsteady. destruct Hsteady as (Hev & HaU & HaD & Hrest).
    cbn [UpdateAll].
    pose proof (Update_fst_counters peer announce cur_time now) as [Hu Hd].
    pose proof (Update_diffs peer announce cur_time now) as Hdiffs.
    destruct (Update Config peer announce cur_time now) as [peer1 diff].
    cbn [fst snd] in Hu, Hd, Hdiffs.
    assert (Event_eqb (AnnounceRequest.Event announce) STARTED = false) as Hev'.
    { destruct (Event_eqb (AnnounceRequest.Event announce) STARTED) eqn:E; [|reflexivity].
      apply Event_eqb_eq in E. contradiction. }
    unfold uint64_range in *.
    rewrite Hev' in Hdiffs. cbn [orb] in Hdiffs.
    destruct (Z.ltb_spec (AnnounceRequest.Uploaded announce) (Uploaded peer)); [lia|].
    destruct (Z.ltb_spec (AnnounceRequest.Downloaded announce) (Downloaded peer)); [lia|].
    cbn [orb] in Hdiffs. rewrite !to_uint64_small in Hdiffs by lia. subst diff.
    specialize (IH peer1). rewrite Hu, Hd in IH.
    destruct IH as [IHu IHd]; [lia|lia|exact Hrest|].
    destruct (UpdateAll Config peer1 rest) as [peer2 diffs].
    cbn [fst snd map sumZ fold_right] in *. unfold sumZ in IHu, IHd. lia.
Qed.

Lemma Update_TotalTime peer announce cur_time now :
  TotalTime (fst (Update Config peer announce cur_time now))
  = if Active peer && (0 <? AnnounceLast peer) then
      if to_uint64 (to_int32 (now - AnnounceLast peer))
         <? to_uint64 (to_uint64 (conf.AnnInterval Config) * 4)
      then to_uint32 (TotalTime peer + to_uint32 (to_uint64 (to_int32 (now - AnnounceLast peer))))
      else TotalTime peer
    else TotalTime peer.
Proof. Update_branches peer announce; reflexivity. Qed.


Lemma Update_inactive peer announce cur_time now :
  Active peer = false ->
  Active (fst (Update Config peer announce cur_time now)) = false
  /\ TotalTime (fst (Update Config peer announce cur_time now)) = TotalTime peer.
Proof.
  intros Hact. Update_branches peer announce; cbn [Active TotalTime]; rewrite Hact;
    cbn [andb]; split; try reflexivity;
    destruct (Event_eqb (AnnounceRequest.Event announce) STOPPED); reflexivity.
Qed.

(** X5.  Once a peer is inactive, no sequence of [Update]s (whatever the
    events, counters and clock readings) makes it active again or adds to
    its cumulative active time. *)
Theorem Update_inactive_accrues_nothing peer announces :
  Active peer = false ->
  Active (fst (UpdateAll Config peer announces)) = false
  /\ TotalTime (fst (UpdateAll Config peer announces)) = TotalTime peer.
Proof.
  revert peer. induction announces as [|[[announce cur_time] now] rest IH]; intros peer Hact.
  - split; [exact Hact|reflexivity].
  - cbn [UpdateAll].
    destruct (Update_inactive peer announce cur_time now Hact) as [Hact1 Htime1].
    destruct (Update Config peer announce cur_time now) as [peer1 diff].
    cbn [fst] in Hact1, Htime1.
    destruct (IH peer1 Hact1) as [Hact2 Htime2].
    destruct (UpdateAll Config peer1 rest) as [peer2 diffs]. cbn [fst] in *.
    split; [exact Hact2|congruence].
Qed.

(** X6.  After [Update] the peer is a seeder exactly when the announce
    reported nothing left to download, and a seeder is never classified as
    hit-and-run, whatever the configuration. *)
Theorem Update_seeder_iff peer announce cur_time now (hnr : conf.Config) :
  (IsSeeder (fst (Update Config peer announce cur_time now)) = true
   <-> AnnounceRequest.Left announce = 0)
  /\ (IsSeeder (fst (Update Config peer announce cur_time now)) = true ->
      IsHNR hnr (fst (Update Config peer announce cur_time now)) = false).
Proof.
  assert (Left (fst (Update Config peer announce cur_time now))
          = AnnounceRequest.Left announce) as Hleft
    by (Update_branches peer announce; reflexivity).
  unfold IsSeeder, IsHNR. rewrite Hleft. split.
  - apply Z.eqb_eq.
  - intros Hz. apply Z.eqb_eq in Hz. rewrite Hz. cbn [Z.ltb Z.compare].
    rewrite andb_false_r. reflexivity.
Qed.

End UpdateAccounting.

(** * Further properties of the compact peer list *)

Section CompactEntries.
Context {N : net.IPv6Text}.

Lemma port_bytes (port : Z) :
  to_byte (Z.shiftr port 8) = (port / 256) mod 256
  /\ to_byte (Z.land port 255) = port mod 256.
Proof.
  unfold to_byte. split.
  - rewrite Z.shiftr_div_pow2 by lia. reflexivity.
  - change 255 with (Z.ones 8). rewrite Z.land_ones by lia.
    rewrite Z.mod_mod by lia. reflexivity.
Qed.

Lemma MakeCompactPeers_fold (peers : list Peer) (skip_id : string) (acc : list Z) :
  fold_left
    (fun out_buf peer =>
       if Port peer <=? 0 then out_buf
       else if String.eqb (PeerID peer) skip_id then out_buf
       else (out_buf ++ net.To4 (net.ParseIP (IP peer)))
              ++ [to_byte (Z.shiftr (Port peer) 8); to_byte (Z.land (Port peer) 255)])
    peers acc
  = acc ++ concat (map compact_entry (List.filter (listed skip_id) peers)).
Proof.
  revert acc. induction peers as [|p peers IH]; intros acc; cbn [fold_left List.filter].
  - cbn. rewrite app_nil_r. reflexivity.
  - rewrite IH. unfold listed at 2.
    destruct (Port p <=? 0); cbn [negb andb]; [reflexivity|].
    destruct (String.eqb (PeerID p) skip_id); cbn [negb andb]; [reflexivity|].
    cbn [map concat]. unfold compact_entry at 2.
    destruct (port_bytes (Port p)) as [-> ->].
    rewrite <- !app_assoc. reflexivity.
Qed.

(** X7.  [MakeCompactPeers] returns, in the order of the input, the entries
    of the peers that have a positive port and whose peer id differs from
    the excluded one, each entry being the IPv4 form of the stored address
    followed by the port as two big-endian bytes; all other peers
    contribute nothing. *)
Theorem MakeCompactPeers_entries (peers : list Peer) (skip_id : string) :
  MakeCompactPeers peers skip_id
  = concat (map compact_entry (List.filter (listed skip_id) peers)).
Proof. unfold MakeCompactPeers. rewrite MakeCompactPeers_fold. reflexivity. Qed.

(** X8.  The compact list of a concatenation is the concatenation of the
    compact lists; a peer with port 0 or with the excluded peer id can be
    dropped from the input without changing the result. *)
Theorem MakeCompactPeers_app (peers1 peers2 : list Peer) (skip_id : string) :
  MakeCompactPeers (peers1 ++ peers2) skip_id
  = MakeCompactPeers peers1 skip_id ++ MakeCompactPeers peers2 skip_id
  /\ forall peer, listed skip_id peer = false ->
       MakeCompactPeers (peers1 ++ peer :: peers2) skip_id
       = MakeCompactPeers (peers1 ++ peers2) skip_id.
Proof.
  unfold MakeCompactPeers. rewrite !MakeCompactPeers_fold. cbn [app]. split.
  - rewrite List.filter_app, List.map_app, List.concat_app. reflexivity.
  - intros peer Hpeer. rewrite !MakeCompactPeers_fold.
    rewrite !List.filter_app. cbn [List.filter]. rewrite Hpeer. reflexivity.
Qed.

(** X9.  The length of the compact list modulo 6 is twice the number
    (modulo 3) of listed peers whose stored address has no IPv4 form: the
    result is a whole number of 6-byte entries exactly when that number is
    a multiple of 3. *)
Theorem MakeCompactPeers_length_mod_6 (peers : list Peer) (skip_id : string) :
  (length (MakeCompactPeers peers skip_id) mod 6
   = 2 * (length (List.filter
                    (fun p => listed skip_id p
                              && (length (net.To4 (net.ParseIP (IP p))) =? 0)%nat) peers)
          mod 3))%nat.
Proof.
  rewrite MakeCompactPeers_length.
  set (v := length (List.filter _ peers)).
  set (o := length (List.filter _ peers)).
  replace (6 * v + 2 * o)%nat with (2 * o + v * 6)%nat by lia.
  rewrite Nat.Div0.mod_add.
  change 6%nat with (2 * 3)%nat. apply Nat.Div0.mul_mod_distr_l.
Qed.

End CompactEntries.

(** ** An announced IPv4 address comes back from the compact list *)

Lemma is_digit_not_separator (c : ascii) :
  net.is_digit c = true -> Ascii.eqb c "." = false /\ Ascii.eqb c ":" = false.
Proof.
  intros Hd. split.
  - destruct (Ascii.eqb_spec c ".") as [->|]; [discriminate|reflexivity].
  - destruct (Ascii.eqb_spec c ":") as [->|]; [discriminate|reflexivity].
Qed.

Lemma append_nil (r : string) : EmptyString +:+ r = r.
Proof. reflexivity. Qed.

Lemma append_cons (c : ascii) (s r : string) : String c s +:+ r = String c (s +:+ r).
Proof. reflexivity. Qed.

Lemma append_empty_r (s : string) : s +:+ EmptyString = s.
Proof. induction s as [|c s IH]; [reflexivity|]. rewrite append_cons, IH. reflexivity. Qed.

Lemma dtoi_loop_app (s : string) (n : Z) (any : bool) (r : string) :
  all_digits s = true ->
  (r = EmptyString \/ exists c r', r = String c r' /\ net.is_digit c = false) ->
  net.dtoi_loop n any (s +:+ r)
  = let '(v, rest, ok) := net.dtoi_loop n any s in (v, rest +:+ r, ok).
Proof.
  revert n any. induction s as [|c s IH]; intros n any Hs Hr.
  - rewrite append_nil. cbn [net.dtoi_loop]. rewrite append_nil.
    destruct Hr as [->|(c & r' & -> & Hc)]; cbn [net.dtoi_loop]; [reflexivity|].
    rewrite Hc. reflexivity.
  - cbn [all_digits] in Hs. apply andb_true_iff in Hs as [Hc Hs].
    rewrite append_cons. cbn [net.dtoi_loop]. rewrite Hc.
    destruct (net.big <=? n * 10 + (Z.of_N (N_of_ascii c) - 48)); [reflexivity|].
    apply IH; assumption.
Qed.

Lemma octets_ok : forallb octet_ok (seq 0 256) = true.
Proof. vm_compute. reflexivity. Qed.

Lemma octet_numeral (n : Z) :
  0 <= n <= 255 ->
  all_digits (net.itod n) = true
  /\ net.itod n <> EmptyString
  /\ net.dtoi (net.itod n) = (n, EmptyString, true).
Proof.
  intros Hn.
  assert (octet_ok (Z.to_nat n) = true) as Hok.
  { apply (proj1 (forallb_forall octet_ok (seq 0 256)) octets_ok).
    apply in_seq. lia. }
  unfold octet_ok in Hok. rewrite Z2Nat.id in Hok by lia.
  apply andb_true_iff in Hok as [Hok Hdtoi]. apply andb_true_iff in Hok as [Hdigits Hne].
  split; [exact Hdigits|]. split.
  - intros Heq. rewrite Heq in Hne. discriminate.
  - destruct (net.dtoi (net.itod n)) as [[v rest] ok].
    apply andb_true_iff in Hdtoi as [Hdtoi ->]. apply andb_true_iff in Hdtoi as [Hv Hrest].
    apply Z.eqb_eq in Hv. apply String.eqb_eq in Hrest. congruence.
Qed.

Lemma dtoi_octet (n : Z) (r : string) :
  0 <= n <= 255 ->
  (r = EmptyString \/ exists r', r = String "." r') ->
  net.dtoi (net.itod n +:+ r) = (n, r, true).
Proof.
  intros Hn Hr. destruct (octet_numeral n Hn) as (Hdigits & _ & Hdtoi).
  unfold net.dtoi in *. rewrite dtoi_loop_app.
  - rewrite Hdtoi. reflexivity.
  - exact Hdigits.
  - destruct Hr as [->|[r' ->]]; [left; reflexivity|right].
    exists "."%char, r'. split; reflexivity.
Qed.

Lemma parseIPv4_fields_first (n : Z) (r : string) (todo : nat) :
  0 <= n <= 255 ->
  (r = EmptyString \/ exists r', r = String "." r') ->
  net.parseIPv4_fields 0 (S todo) (net.itod n +:+ r)
  = option_map (cons n) (net.parseIPv4_fields 1 todo r).
Proof.
  intros Hn Hr. pose proof (dtoi_octet n r Hn Hr) as Hdtoi.
  destruct (octet_numeral n Hn) as (_ & Hne & _).
  destruct (net.itod n) as [|c s]; [contradiction|].
  rewrite append_cons in *. cbn [net.parseIPv4_fields Nat.ltb Nat.leb].
  rewrite Hdtoi. cbn [negb orb].
  destruct (Z.ltb_spec 255 n); [lia|reflexivity].
Qed.

Lemma parseIPv4_fields_next (j : nat) (n : Z) (r : string) (todo : nat) :
  0 <= n <= 255 ->
  (r = EmptyString \/ exists r', r = String "." r') ->
  net.parseIPv4_fields (S j) (S todo) (String "." (net.itod n +:+ r))
  = option_map (cons n) (net.parseIPv4_fields (S (S j)) todo r).
Proof.
  intros Hn Hr. pose proof (dtoi_octet n r Hn Hr) as Hdtoi.
  cbn [net.parseIPv4_fields Nat.ltb Nat.leb].
  change (Ascii.eqb "." ".") with true. cbn iota.
  rewrite Hdtoi. cbn [negb orb].
  destruct (Z.ltb_spec 255 n); [lia|reflexivity].
Qed.

Lemma ParseIP_scan_digits {N : net.IPv6Text} (s ds r : string) :
  all_digits ds = true ->
  net.ParseIP_scan s (ds +:+ String "." r) = net.parseIPv4 s.
Proof.
  intros Hds. induction ds as [|c ds IH].
  - reflexivity.
  - cbn [all_digits] in Hds. apply andb_true_iff in Hds as [Hc Hds].
    rewrite append_cons. cbn [net.ParseIP_scan].
    destruct (is_digit_not_separator c Hc) as [-> ->]. apply IH. exact Hds.
Qed.

Lemma ParseIP_dotted {N : net.IPv6Text} (a b c d : Z) :
  0 <= a <= 255 -> 0 <= b <= 255 -> 0 <= c <= 255 -> 0 <= d <= 255 ->
  net.ParseIP (net.itod a +:+ "." +:+ net.itod b +:+ "." +:+ net.itod c +:+ "." +:+ net.itod d)
  = net.IPv4 a b c d.
Proof.
  intros Ha Hb Hc Hd. unfold net.ParseIP.
  change (net.itod a +:+ "." +:+ net.itod b +:+ "." +:+ net.itod c +:+ "." +:+ net.itod d)
    with (net.itod a +:+ String "."
            (net.itod b +:+ String "." (net.itod c +:+ String "." (net.itod d)))).
  rewrite <- (append_empty_r (net.itod d)).
  destruct (octet_numeral a Ha) as (Hdigits & _ & _).
  rewrite (ParseIP_scan_digits _ (net.itod a) _ Hdigits).
  unfold net.parseIPv4, net.IPv4len.
  rewrite parseIPv4_fields_first by (try assumption; right; eexists; reflexivity).
  rewrite parseIPv4_fields_next by (try assumption; right; eexists; reflexivity).
  rewrite parseIPv4_fields_next by (try assumption; right; eexists; reflexivity).
  rewrite parseIPv4_fields_next by (try assumption; left; reflexivity).
  reflexivity.
Qed.

Section RoundTrip.
Context {L : util.Lib} {N : net.IPv6Text}.
Variable Config : conf.Config.

(** X10.  A peer updated from an announce that carries the IPv4 address
    a.b.c.d (as 4 bytes or as a 16-byte IPv4-mapped address), a positive
    port and a peer id other than the excluded one is listed by
    [MakeCompactPeers] as the six bytes a, b, c, d and the port in
    big-endian order; the two port bytes give back the port when it is
    below 65536 and its low 16 bits otherwise. *)
Theorem Update_then_MakeCompactPeers (peer : Peer) (announce : AnnounceRequest.t)
    (cur_time now : Z) (skip_id : string) (a b c d : Z) :
  net.To4 (AnnounceRequest.IPv4 announce) = [a; b; c; d] ->
  0 <= a <= 255 -> 0 <= b <= 255 -> 0 <= c <= 255 -> 0 <= d <= 255 ->
  0 < AnnounceRequest.Port announce ->
  AnnounceRequest.PeerID announce <> skip_id ->
  MakeCompactPeers [fst (Update Config peer announce cur_time now)] skip_id
  = [a; b; c; d; (AnnounceRequest.Port announce / 256) mod 256;
     AnnounceRequest.Port announce mod 256]
  /\ 256 * ((AnnounceRequest.Port announce / 256) mod 256)
       + AnnounceRequest.Port announce mod 256
     = AnnounceRequest.Port announce mod 65536.
Proof.
  intros Hip Ha Hb Hc Hd Hport Hid. split.
  - unfold MakeCompactPeers. rewrite MakeCompactPeers_fold. cbn [app List.filter].
    assert (exists peer', fst (Update Config peer announce cur_time now) = peer'
                          /\ Port peer' = AnnounceRequest.Port announce
                          /\ PeerID peer' = AnnounceRequest.PeerID announce
                          /\ IP peer' = net.String (AnnounceRequest.IPv4 announce))
      as (peer' & -> & HP & HI & HIP).
    { eexists. split; [reflexivity|]. unfold Update.
      destruct (Event_eqb (AnnounceRequest.Event announce) STARTED);
        [|destruct ((AnnounceRequest.Uploaded announce <? Uploaded peer)
                    || (AnnounceRequest.Downloaded announce <? Downloaded peer));
          [|destruct (negb (AnnounceRequest.Uploaded announce =? Uploaded peer));
            destruct (negb (AnnounceRequest.Downloaded announce =? Downloaded peer))]];
        repeat split; reflexivity. }
    unfold listed. rewrite HP, HI.
    destruct (Z.leb_spec (AnnounceRequest.Port announce) 0); [lia|].
    destruct (String.eqb_spec (AnnounceRequest.PeerID announce) skip_id); [contradiction|].
    cbn [negb andb map concat]. unfold compact_entry. rewrite HP, HIP, app_nil_r.
    assert (net.String (AnnounceRequest.IPv4 announce)
            = net.itod a +:+ "." +:+ net.itod b +:+ "." +:+ net.itod c +:+ "." +:+ net.itod d)
      as ->.
    { unfold net.String. rewrite Hip.
      destruct (AnnounceRequest.IPv4 announce); [discriminate Hip|reflexivity]. }
    rewrite ParseIP_dotted by assumption. reflexivity.
  - rewrite (Z.mod_eq (AnnounceRequest.Port announce) 65536) by lia.
    pose proof (Z.div_mod (AnnounceRequest.Port announce) 256 ltac:(lia)).
    pose proof (Z.div_mod (AnnounceRequest.Port announce / 256) 256 ltac:(lia)).
    replace (AnnounceRequest.Port announce / 65536)
      with (AnnounceRequest.Port announce / 256 / 256)
      by (rewrite Z.div_div by lia; reflexivity).
    lia.
Qed.

End RoundTrip.

(** * Further properties of [MakePeer], the redis keys and the queued commands *)

Lemma append_assoc (s1 s2 s3 : string) : (s1 +:+ s2) +:+ s3 = s1 +:+ s2 +:+ s3.
Proof.
  induction s1 as [|c s1 IH]; [reflexivity|].
  rewrite !append_cons, IH. reflexivity.
Qed.

Lemma append_inj_length (s1 s2 r1 r2 : string) :
  String.length s1 = String.length s2 ->
  s1 +:+ r1 = s2 +:+ r2 ->
  s1 = s2 /\ r1 = r2.
Proof.
  revert s2. induction s1 as [|c s1 IH]; intros [|d s2] Hlen Heq;
    try discriminate Hlen.
  - split; [reflexivity|exact Heq].
  - rewrite !append_cons in Heq. injection Heq as -> Heq.
    injection Hlen as Hlen. destruct (IH s2 Hlen Heq) as [-> ->].
    split; reflexivity.
Qed.

(** X11.  [MakePeer] reports [err_parse_reply] exactly when the reply cannot
    be read as values and [err_cast_reply] exactly when the values cannot be
    scanned into the peer; when it reports no error the peer carries the
    requested peer id whatever the stored record held, and when the reply
    holds no values the peer is the default one. *)
Theorem MakePeer_outcomes `{RedisLib} (redis_reply : Reply) (torrent_id : Z)
    (info_hash peer_id : string) (t1 t2 : Z) :
  (snd (MakePeer redis_reply torrent_id info_hash peer_id t1 t2) = None ->
   PeerID (fst (MakePeer redis_reply torrent_id info_hash peer_id t1 t2)) = peer_id)
  /\ (snd (MakePeer redis_reply torrent_id info_hash peer_id t1 t2) = Some err_parse_reply
      <-> exists e, Values redis_reply = inr e)
  /\ (snd (MakePeer redis_reply torrent_id info_hash peer_id t1 t2) = Some err_cast_reply
      <-> exists values,
            Values redis_reply = inl (Some values)
            /\ snd (ScanStruct values (newPeer torrent_id info_hash peer_id t1 t2)) = false)
  /\ ((exists e, Values redis_reply = inr e) \/ Values redis_reply = inl None ->
      fst (MakePeer redis_reply torrent_id info_hash peer_id t1 t2)
      = newPeer torrent_id info_hash peer_id t1 t2).
Proof.
  unfold MakePeer. destruct (Values redis_reply) as [[values|]|e].
  - destruct (ScanStruct values (newPeer torrent_id info_hash peer_id t1 t2))
      as [peer ok] eqn:Hscan.
    destruct ok; cbn [fst snd]; repeat split; try discriminate; try reflexivity.
    + intros [e He]. discriminate.
    + intros (vs & Hvs & Hok). injection Hvs as <-. rewrite Hscan in Hok. discriminate.
    + intros [[e He]|He]; discriminate.
    + intros [e He]. discriminate.
    + intros _. exists values. rewrite Hscan. split; reflexivity.
    + intros [[e He]|He]; discriminate.
  - cbn [fst snd]. repeat split; try discriminate; try reflexivity.
    + intros [e He]. discriminate.
    + intros (vs & Hvs & _). discriminate.
  - cbn [fst snd]. repeat split; try discriminate; try reflexivity.
    + intros _. exists e. reflexivity.
    + intros (vs & Hvs & _). discriminate.
Qed.

(** X12.  A peer made from a reply that holds no values is never listed by
    [MakeCompactPeers] (its port is 0), is inactive, and is not a
    hit-and-run under any configuration. *)
Theorem MakePeer_default_not_listed `{RedisLib} {N : net.IPv6Text} (redis_reply : Reply)
    (torrent_id : Z) (info_hash peer_id : string) (t1 t2 : Z)
    (peers1 peers2 : list Peer) (skip_id : string) (Config : conf.Config) :
  (exists e, Values redis_reply = inr e) \/ Values redis_reply = inl None ->
  MakeCompactPeers
    (peers1 ++ fst (MakePeer redis_reply torrent_id info_hash peer_id t1 t2) :: peers2) skip_id
  = MakeCompactPeers (peers1 ++ peers2) skip_id
  /\ Active (fst (MakePeer redis_reply torrent_id info_hash peer_id t1 t2)) = false
  /\ IsHNR Config (fst (MakePeer redis_reply torrent_id info_hash peer_id t1 t2)) = false.
Proof.
  intros Hreply.
  assert (fst (MakePeer redis_reply torrent_id info_hash peer_id t1 t2)
          = newPeer torrent_id info_hash peer_id t1 t2) as ->.
  { unfold MakePeer. destruct Hreply as [[e ->]| ->]; reflexivity. }
  split; [|split].
  - unfold MakeCompactPeers. rewrite !MakeCompactPeers_fold, !List.filter_app.
    reflexivity.
  - reflexivity.
  - unfold IsHNR. cbn [newPeer Left]. rewrite andb_false_r. reflexivity.
Qed.

(** X13.  The key of a peer never equals the timer key of any peer; two
    peers whose infohashes have the same length share a peer key (or a timer
    key) only when they have the same infohash and the same peer id; and the
    length condition is needed, a colon in an infohash allowing a
    collision. *)
Theorem newPeer_keys (torrent_id1 torrent_id2 : Z) (info_hash1 info_hash2 : string)
    (peer_id1 peer_id2 : string) (t1 t2 t3 t4 : Z) :
  KeyPeer (newPeer torrent_id1 info_hash1 peer_id1 t1 t2)
  <> KeyTimer (newPeer torrent_id2 info_hash2 peer_id2 t3 t4)
  /\ (String.length info_hash1 = String.length info_hash2 ->
      KeyPeer (newPeer torrent_id1 info_hash1 peer_id1 t1 t2)
      = KeyPeer (newPeer torrent_id2 info_hash2 peer_id2 t3 t4)
      \/ KeyTimer (newPeer torrent_id1 info_hash1 peer_id1 t1 t2)
         = KeyTimer (newPeer torrent_id2 info_hash2 peer_id2 t3 t4) ->
      info_hash1 = info_hash2 /\ peer_id1 = peer_id2)
  /\ KeyPeer (newPeer torrent_id1 "a:b" "c" t1 t2)
     = KeyPeer (newPeer torrent_id2 "a" "b:c" t3 t4).
Proof.
  cbn [newPeer KeyPeer KeyTimer]. split; [|split].
  - intros Heq. discriminate Heq.
  - intros Hlen [Heq|Heq].
    + apply (append_inj_length "t:p:" "t:p:") in Heq as [_ Heq]; [|reflexivity].
      apply append_inj_length in Heq as [-> Heq]; [|exact Hlen].
      apply (append_inj_length ":" ":") in Heq as [_ ->]; [|reflexivity].
      split; reflexivity.
    + apply (append_inj_length "t:ptimeout:" "t:ptimeout:") in Heq as [_ Heq]; [|reflexivity].
      apply append_inj_length in Heq as [-> Heq]; [|exact Hlen].
      apply (append_inj_length ":" ":") in Heq as [_ ->]; [|reflexivity].
      split; reflexivity.
  - reflexivity.
Qed.

(** X14.  [AddHNR] queues one [SADD] command after those already queued,
    and the commands of two peers coincide only when the peers belong to the
    same user and the same torrent id is added: the hit-and-run sets of
    different users have different keys. *)
Theorem AddHNR_key_per_user (peer1 peer2 : Peer) (r : list Command) (torrent_id1 torrent_id2 : Z) :
  (exists c, AddHNR peer1 r torrent_id1 = r ++ [c] /\ commandName c = "SADD")
  /\ (AddHNR peer1 r torrent_id1 = AddHNR peer2 r torrent_id2 ->
      UserID peer1 = UserID peer2 /\ torrent_id1 = torrent_id2).
Proof.
  unfold AddHNR, Send. split.
  - eexists. split; reflexivity.
  - intros Heq. apply app_inv_head in Heq. injection Heq as Hkey Hid.
    split; [|exact Hid].
    change (pretty (UserID peer1) = pretty (UserID peer2)) in Hkey.
    apply pretty_Z_inj in Hkey. exact Hkey.
Qed.

Section SyncAfterUpdate.
Context {L : util.Lib} {N : net.IPv6Text}.
Variable Config : conf.Config.

(** X15.  [Sync] after [Update] queues, behind the commands already queued,
    one [HMSET] on the key the peer had before the update (also when the
    announce changed the peer id), with 18 field/value pairs under pairwise
    distinct names, among them the uploaded, downloaded, left and port
    values and the peer id of the announce. *)
Theorem Update_then_Sync (peer : Peer) (announce : AnnounceRequest.t) (cur_time now : Z)
    (r : list Command) :
  exists c,
    Sync (fst (Update Config peer announce cur_time now)) r = r ++ [c]
    /\ commandName c = "HMSET"
    /\ hmset_key c = Some (AString (KeyPeer peer))
    /\ length (hmset_pairs c) = 18%nat
    /\ NoDup (map fst (hmset_pairs c))
    /\ In (AString "uploaded", AUint64 (AnnounceRequest.Uploaded announce)) (hmset_pairs c)
    /\ In (AString "downloaded", AUint64 (AnnounceRequest.Downloaded announce)) (hmset_pairs c)
    /\ In (AString "left", AUint64 (AnnounceRequest.Left announce)) (hmset_pairs c)
    /\ In (AString "port", AUint64 (AnnounceRequest.Port announce)) (hmset_pairs c)
    /\ In (AString "peer_id", AString (AnnounceRequest.PeerID announce)) (hmset_pairs c).
Proof.
  destruct (Update_fields Config peer announce cur_time now)
    as (HU & HD & HL & _ & HP & HI & _ & _ & HK & _).
  eexists. split; [reflexivity|]. split; [reflexivity|].
  unfold hmset_key, hmset_pairs. cbn [args head tail pairs map fst length].
  rewrite HU, HD, HL, HP, HI, HK.
  split; [reflexivity|]. split; [reflexivity|]. split.
  - repeat (apply NoDup_cons_2;
            [rewrite ?elem_of_cons, elem_of_nil; intuition discriminate|]).
    apply NoDup_nil_2.
  - cbn [In]. repeat split; tauto.
Qed.

End SyncAfterUpdate.

(** * Further properties of the client whitelist *)

Lemma IsValidClient_range_orb (whitelist : list string) (peer_id : string) :
  IsValidClient_range whitelist peer_id
  = existsb (HasPrefix peer_id) whitelist.
Proof.
  induction whitelist as [|p wl IH]; cbn [IsValidClient_range existsb]; [reflexivity|].
  rewrite IH. destruct (HasPrefix peer_id p); reflexivity.
Qed.

(** X16.  The answer of [IsValidClient] does not depend on the order of the
    whitelist nor on repeated entries: two whitelists with the same entries
    accept the same peer ids, although the loop stops at the first match. *)
Theorem IsValidClient_order_irrelevant {Conn : Type} (t1 t2 : Tracker) (r : Conn)
    (peer_id : string) :
  (forall client_prefix, In client_prefix (Whitelist t1) <-> In client_prefix (Whitelist t2)) ->
  IsValidClient t1 r peer_id = IsValidClient t2 r peer_id.
Proof.
  intros Hsame. unfold IsValidClient. rewrite !IsValidClient_range_orb.
  destruct (existsb (HasPrefix peer_id) (Whitelist t1)) eqn:H1;
    destruct (existsb (HasPrefix peer_id) (Whitelist t2)) eqn:H2; try reflexivity.
  - apply existsb_exists in H1 as (p & Hin & Hp).
    assert (existsb (HasPrefix peer_id) (Whitelist t2) = true) as Habs
      by (apply existsb_exists; exists p; split; [apply Hsame; exact Hin|exact Hp]).
    congruence.
  - apply existsb_exists in H2 as (p & Hin & Hp).
    assert (existsb (HasPrefix peer_id) (Whitelist t1) = true) as Habs
      by (apply existsb_exists; exists p; split; [apply Hsame; exact Hin|exact Hp]).
    congruence.
Qed.

(** X17.  An empty whitelist accepts no peer id, and a whitelist that holds
    the empty prefix accepts every peer id, the empty one included. *)
Theorem IsValidClient_edge_whitelists {Conn : Type} (t : Tracker) (r : Conn) (peer_id : string) :
  (Whitelist t = [] -> IsValidClient t r peer_id = false)
  /\ (In EmptyString (Whitelist t) -> IsValidClient t r peer_id = true).
Proof.
  unfold IsValidClient. rewrite IsValidClient_range_orb. split.
  - intros ->. reflexivity.
  - intros Hin. apply existsb_exists. exists EmptyString. split; [exact Hin|].
    apply HasPrefix_iff. exists peer_id. reflexivity.
Qed.

(** X18.  Only the leading bytes of a peer id matter: a peer id that is
    accepted stays accepted however it is continued, and a peer id shorter
    than every whitelist entry is rejected. *)
Theorem IsValidClient_leading_bytes {Conn : Type} (t : Tracker) (r : Conn)
    (peer_id suffix : string) :
  (IsValidClient t r peer_id = true -> IsValidClient t r (peer_id +:+ suffix) = true)
  /\ ((forall client_prefix, In client_prefix (Whitelist t) ->
         (String.length peer_id < String.length client_prefix)%nat) ->
      IsValidClient t r peer_id = false).
Proof.
  unfold IsValidClient. rewrite !IsValidClient_range_orb. split.
  - intros Hok. apply existsb_exists in Hok as (p & Hin & Hp).
    apply existsb_exists. exists p. split; [exact Hin|].
    apply HasPrefix_iff in Hp as [rest ->]. apply HasPrefix_iff.
    exists (rest +:+ suffix). apply append_assoc.
  - intros Hshort. destruct (existsb (HasPrefix peer_id) (Whitelist t)) eqn:E; [|reflexivity].
    apply existsb_exists in E as (p & Hin & Hp). specialize (Hshort p Hin).
    unfold HasPrefix in Hp. apply andb_true_iff in Hp as [Hlen _].
    apply Nat.leb_le in Hlen. lia.
Qed.

(** * Further properties of the scrape handler *)

Section ScrapeCalls.
Context {M : model.Lib} {D : Decls} {W : Type}.
Variable world : World W.

Lemma run_scrape_range_calls (infoHashes : list string) (resp : gmap string bencode.Value)
    (w : W) :
  let calls := snd (run world (scrape_range infoHashes resp) w) in
  Forall (fun a => is_lookup a = true) calls
  /\ List.filter is_torrents_get calls
     = map (fun ihStr => TorrentsGet (model.InfoHashFromString ihStr)) infoHashes
  /\ Forall limit_100 calls
  /\ (length calls <= 2 * length infoHashes)%nat.
Proof.
  cbv zeta. revert resp w. induction infoHashes as [|ihStr rest IH]; intros resp w.
  - cbn. repeat split; constructor.
  - cbn [scrape_range]. unfold mbind, Handler_bind, call. cbn [bind run].
    destruct (world (TorrentsGet (model.InfoHashFromString ihStr)) w) as [[torrent|] w1].
    + cbn [bind run].
      destruct (world (PeersGetN (model.InfoHashFromString ihStr) 100) w1) as [[swarm|] w2].
      * destruct (model.Counts swarm) as [seeders leechers].
        match goal with
        | |- context [run world (scrape_range rest ?r) w2] =>
            destruct (IH r w2) as (Hl & Ht & Hn & Hlen);
            destruct (run world (scrape_range rest r) w2) as [[x w3] calls]
        end.
        cbn [snd] in *. cbn [List.filter is_torrents_get map length].
        rewrite Ht. repeat split; try (repeat constructor; assumption). lia.
      * destruct (IH resp w2) as (Hl & Ht & Hn & Hlen).
        destruct (run world (scrape_range rest resp) w2) as [[x w3] calls].
        cbn [snd] in *. cbn [List.filter is_torrents_get map length].
        rewrite Ht. repeat split; try (repeat constructor; assumption). lia.
    + destruct (IH resp w1) as (Hl & Ht & Hn & Hlen).
      destruct (run world (scrape_range rest resp) w1) as [[x w3] calls].
      cbn [snd] in *. cbn [List.filter is_torrents_get map length].
      rewrite Ht. repeat split; try (repeat constructor; assumption). lia.
Qed.

(** X19.  When the pre-flight checks fail, [scrape] makes no further call:
    it parses nothing, looks nothing up and writes nothing itself.  When
    they pass and the query cannot be parsed, its only further call is
    [oops] with [msgMalformedRequest]. *)
Theorem scrape_rejections (RequestURI : string) (w : W) :
  (fst (world PreFlightChecks w) = false ->
   run world (scrape RequestURI) w = (tt, snd (world PreFlightChecks w), [PreFlightChecks]))
  /\ (fst (world PreFlightChecks w) = true ->
      queryStringParser RequestURI = None ->
      run world (scrape RequestURI) w
      = (tt, snd (world (Oops msgMalformedRequest) (snd (world PreFlightChecks w))),
         [PreFlightChecks; Oops msgMalformedRequest])).
Proof.
  unfold scrape, mbind, Handler_bind, call. cbn [bind run].
  destruct (world PreFlightChecks w) as [valid w1]. cbn [fst snd]. split.
  - intros ->. reflexivity.
  - intros -> Hparse. cbn [negb]. rewrite Hparse. cbn [run].
    destruct (world (Oops msgMalformedRequest) w1) as [[] w2]. reflexivity.
Qed.

(** X20.  Whatever the world answers, the calls of one [scrape] have one of
    four shapes: the pre-flight checks alone; the pre-flight checks and one
    [oops] with [msgMalformedRequest]; the pre-flight checks, store lookups
    and one failed encoding, with nothing written; or the pre-flight
    checks, store lookups, one encoding and one [c.String] with status 200
    whose body is what the encoder returned.  So at most one response is
    written, never both a failure and a body, and nothing is looked up after
    the encoding. *)
Theorem scrape_calls_shape (RequestURI : string) (w : W) :
  let calls := snd (run world (scrape RequestURI) w) in
  calls = [PreFlightChecks]
  \/ calls = [PreFlightChecks; Oops msgMalformedRequest]
  \/ exists lookups resp,
       Forall (fun a => is_lookup a = true) lookups
       /\ ((calls = PreFlightChecks :: lookups ++ [Encode resp]
            /\ exists w', fst (world (Encode resp) w') = None)
           \/ exists body w',
                calls = PreFlightChecks :: lookups ++ [Encode resp; CString StatusOK body]
                /\ fst (world (Encode resp) w') = Some body).
Proof.
  cbv zeta. unfold scrape, mbind, Handler_bind, call. cbn [bind run].
  destruct (world PreFlightChecks w) as [[|] w1]; cbn [negb]; [|left; reflexivity].
  destruct (queryStringParser RequestURI) as [q|].
  - destruct (length (InfoHashes q) =? 0)%nat.
    + right. left. cbn [run].
      destruct (world (Oops msgMalformedRequest) w1) as [[] w2]. reflexivity.
    + right. right. rewrite run_bind.
      destruct (run_scrape_range_calls (InfoHashes q) ∅ w1) as (Hl & _).
      destruct (run world (scrape_range (InfoHashes q) ∅) w1) as [[resp w2] lookups].
      cbn [snd] in Hl. exists lookups, resp. split; [exact Hl|].
      cbn [bind run].
      destruct (world (Encode resp) w2) as [[body|] w3] eqn:Henc.
      * right. exists body, w2. cbn [bind run].
        destruct (world (CString StatusOK body) w3) as [[] w4]. cbn [snd].
        rewrite Henc. split; reflexivity.
      * left. cbn [run snd]. split; [reflexivity|]. exists w2. rewrite Henc. reflexivity.
  - right. left. cbn [run].
    destruct (world (Oops msgMalformedRequest) w1) as [[] w2]. reflexivity.
Qed.

(** X21.  For a query that passes the pre-flight checks and parses,
    whatever the stores answer: [Torrents.Get] is called once for every
    requested infohash string, in the order of the request and with
    repetitions kept; every [Peers.GetN] asks for at most 100 peers; and
    the stores are called at most twice per requested infohash string. *)
Theorem scrape_lookups (RequestURI : string) (q : Query) (w : W) :
  fst (world PreFlightChecks w) = true ->
  queryStringParser RequestURI = Some q ->
  let calls := snd (run world (scrape RequestURI) w) in
  List.filter is_torrents_get calls
  = map (fun ihStr => TorrentsGet (model.InfoHashFromString ihStr)) (InfoHashes q)
  /\ Forall limit_100 calls
  /\ (length (List.filter is_lookup calls) <= 2 * length (InfoHashes q))%nat.
Proof.
  intros Hvalid Hparse. cbv zeta.
  unfold scrape, mbind, Handler_bind, call. cbn [bind run].
  destruct (world PreFlightChecks w) as [valid w1]. cbn [fst] in Hvalid. subst valid.
  cbn [negb]. rewrite Hparse.
  destruct (InfoHashes q) as [|ihStr rest] eqn:Hq.
  - cbn [length Nat.eqb run].
    destruct (world (Oops msgMalformedRequest) w1) as [[] w2]. cbn.
    repeat split; [repeat constructor|lia].
  - cbn [length Nat.eqb]. rewrite run_bind.
    destruct (run_scrape_range_calls (ihStr :: rest) ∅ w1) as (Hl & Ht & Hn & Hlen).
    destruct (run world (scrape_range (ihStr :: rest) ∅) w1) as [[resp w2] lookups].
    cbn [snd] in Hl, Ht, Hn, Hlen. cbn [bind run].
    assert (List.filter is_lookup lookups = lookups) as Hall.
    { clear -Hl. induction Hl as [|a l Ha Hl IH]; [reflexivity|].
      cbn [List.filter]. rewrite Ha, IH. reflexivity. }
    destruct (world (Encode resp) w2) as [[body|] w3].
    + cbn [bind run]. destruct (world (CString StatusOK body) w3) as [[] w4].
      cbn [snd List.filter is_torrents_get is_lookup].
      rewrite !List.filter_app. cbn [List.filter is_torrents_get is_lookup].
      rewrite !app_nil_r, Ht, Hall. split; [reflexivity|]. split; [|exact Hlen].
      constructor; [exact I|]. apply Forall_app. split; [exact Hn|].
      repeat constructor.
    + cbn [run snd List.filter is_torrents_get is_lookup].
      rewrite !List.filter_app. cbn [List.filter is_torrents_get is_lookup].
      rewrite !app_nil_r, Ht, Hall. split; [reflexivity|]. split; [|exact Hlen].
      constructor; [exact I|]. apply Forall_app. split; [exact Hn|].
      repeat constructor.
Qed.

End ScrapeCalls.

Section ScrapeResponse.
Context {M : model.Lib} {D : Decls} {W : Type}.
Variable world : World W.
Variable torrents : model.InfoHash -> option model.Torrent.
Variable peers : model.InfoHash -> option model.Swarm.
Hypothesis world_torrents : forall ih w, fst (world (TorrentsGet ih) w) = torrents ih.
Hypothesis world_peers : forall ih w, fst (world (PeersGetN ih 100) w) = peers ih.

Lemma run_scrape_encoded (RequestURI : string) (q : Query) (w : W) :
  fst (world PreFlightChecks w) = true ->
  queryStringParser RequestURI = Some q ->
  InfoHashes q <> [] ->
  List.filter is_encode (snd (run world (scrape RequestURI) w))
  = [Encode (scrape_fold torrents peers (InfoHashes q) ∅)].
Proof.
  intros Hvalid Hparse Hne.
  destruct (run_scrape_range world torrents peers world_torrents world_peers
              (InfoHashes q) ∅ (snd (world PreFlightChecks w)))
    as (w' & lookups & Hrun & Hlookups).
  assert (List.filter is_encode lookups = []) as Hnone.
  { clear -Hlookups. induction Hlookups as [|a l Ha Hl IH]; [reflexivity|].
    cbn [List.filter]. rewrite IH. destruct a; try discriminate Ha; reflexivity. }
  unfold scrape, mbind, Handler_bind, call. cbn [bind run].
  destruct (world PreFlightChecks w) as [valid w1]. cbn [fst snd] in *. subst valid.
  cbn [negb]. rewrite Hparse.
  destruct (InfoHashes q) as [|ihStr rest] eqn:Hq; [contradiction|].
  cbn [length Nat.eqb]. rewrite run_bind, Hrun. cbn [bind run].
  destruct (world (Encode (scrape_fold torrents peers (ihStr :: rest) ∅)) w') as [[body|] w2].
  - cbn [bind run]. destruct (world (CString StatusOK body) w2) as [[] w3].
    cbn [snd List.filter is_encode]. rewrite List.filter_app, Hnone. reflexivity.
  - cbn [run snd List.filter is_encode]. rewrite List.filter_app, Hnone. reflexivity.
Qed.

Lemma scrape_fold_value (infoHashes : list string) (k : string) (ihStr : string)
    (torrent : model.Torrent) (swarm : model.Swarm) :
  (forall s s', In s infoHashes -> In s' infoHashes -> scrape_key s = scrape_key s' ->
                model.InfoHashFromString s = model.InfoHashFromString s') ->
  In ihStr infoHashes ->
  scrape_key ihStr = k ->
  torrents (model.InfoHashFromString ihStr) = Some torrent ->
  peers (model.InfoHashFromString ihStr) = Some swarm ->
  scrape_fold torrents peers infoHashes ∅ !! k = Some (bencode.Dict (files torrent swarm)).
Proof.
  intros Hkeys Hin Hk Ht Hp.
  assert (is_Some (scrape_fold torrents peers infoHashes ∅ !! k)) as [v Hv].
  { apply scrape_fold_is_Some. right. exists ihStr. split; [exact Hin|]. split; [exact Hk|].
    unfold resolves. rewrite Ht, Hp. reflexivity. }
  rewrite Hv.
  apply scrape_fold_lookup in Hv as [Hv|(s & t & sw & Hs & Hsk & Hst & Hsp & ->)].
  - rewrite lookup_empty in Hv. discriminate.
  - assert (model.InfoHashFromString s = model.InfoHashFromString ihStr) as Heq
      by (apply Hkeys; [exact Hs|exact Hin|congruence]).
    rewrite Heq in Hst, Hsp. congruence.
Qed.

(** X22.  With stores that answer consistently, the dictionary handed to
    the encoder depends only on which infohash strings are requested, not
    on their order nor on how often each is repeated, provided that
    requested strings filed under the same key denote the same infohash. *)
Theorem scrape_response_order_irrelevant (RequestURI1 RequestURI2 : string)
    (q1 q2 : Query) (w1 w2 : W) :
  fst (world PreFlightChecks w1) = true ->
  fst (world PreFlightChecks w2) = true ->
  queryStringParser RequestURI1 = Some q1 ->
  queryStringParser RequestURI2 = Some q2 ->
  InfoHashes q1 <> [] ->
  (forall ihStr, In ihStr (InfoHashes q1) <-> In ihStr (InfoHashes q2)) ->
  (forall s s', In s (InfoHashes q1) -> In s' (InfoHashes q1) ->
                scrape_key s = scrape_key s' ->
                model.InfoHashFromString s = model.InfoHashFromString s') ->
  List.filter is_encode (snd (run world (scrape RequestURI1) w1))
  = List.filter is_encode (snd (run world (scrape RequestURI2) w2)).
Proof.
  intros Hv1 Hv2 Hp1 Hp2 Hne Hsame Hkeys.
  assert (InfoHashes q2 <> []) as Hne2.
  { destruct (InfoHashes q1) as [|s l] eqn:Hq1; [contradiction|].
    intros Hq2. rewrite Hq2 in Hsame. apply (proj1 (Hsame s)). left. reflexivity. }
  assert (forall s s', In s (InfoHashes q2) -> In s' (InfoHashes q2) ->
                       scrape_key s = scrape_key s' ->
                       model.InfoHashFromString s = model.InfoHashFromString s') as Hkeys2.
  { intros s s' Hs Hs'. apply Hkeys; apply Hsame; assumption. }
  rewrite (run_scrape_encoded RequestURI1 q1 w1 Hv1 Hp1 Hne).
  rewrite (run_scrape_encoded RequestURI2 q2 w2 Hv2 Hp2 Hne2).
  f_equal. f_equal. apply map_eq. intros k.
  destruct (scrape_fold torrents peers (InfoHashes q1) ∅ !! k) as [v|] eqn:E1.
  - apply scrape_fold_lookup in E1 as [E1|(s & t & sw & Hs & Hk & Ht & Hsw & ->)].
    + rewrite lookup_empty in E1. discriminate.
    + symmetry. apply (scrape_fold_value (InfoHashes q2) k s t sw Hkeys2); try assumption.
      apply Hsame. exact Hs.
  - destruct (scrape_fold torrents peers (InfoHashes q2) ∅ !! k) as [v|] eqn:E2; [|reflexivity].
    apply scrape_fold_lookup in E2 as [E2|(s & t & sw & Hs & Hk & Ht & Hsw & ->)].
    + rewrite lookup_empty in E2. discriminate.
    + rewrite (scrape_fold_value (InfoHashes q1) k s t sw Hkeys) in E1; try assumption.
      * discriminate.
      * apply Hsame. exact Hs.
Qed.

End ScrapeResponse.

(** * The speed estimates kept by [Update] *)

Lemma SFltb_irrefl (x : spec_float) : SFltb x x = false.
Proof.
  unfold SFltb, SFcompare.
  destruct x as [s|s| |s m e]; try (destruct s; reflexivity); try reflexivity.
  destruct s; rewrite Z.compare_refl, Pos.compare_cont_refl; reflexivity.
Qed.

Lemma ltb_irrefl (x : float) : PrimFloat.ltb x x = false.
Proof. rewrite ltb_spec. apply SFltb_irrefl. Qed.

(** X23.  After [Update] the historical maximum of either speed is the
    maximum before or the speed just estimated, and it is never below the
    speed just estimated. *)
Theorem Update_speed_max {L : util.Lib} {N : net.IPv6Text} (Config : conf.Config)
    (peer : Peer) (announce : AnnounceRequest.t) (cur_time now : Z) :
  let peer' := fst (Update Config peer announce cur_time now) in
  PrimFloat.ltb (SpeedUPMax peer') (SpeedUP peer') = false
  /\ PrimFloat.ltb (SpeedDNMax peer') (SpeedDN peer') = false
  /\ (SpeedUPMax peer' = SpeedUPMax peer \/ SpeedUPMax peer' = SpeedUP peer')
  /\ (SpeedDNMax peer' = SpeedDNMax peer \/ SpeedDNMax peer' = SpeedDN peer').
Proof.
  assert (forall m x : float,
            PrimFloat.ltb (if PrimFloat.ltb m x then x else m) x = false
            /\ ((if PrimFloat.ltb m x then x else m) = m
                \/ (if PrimFloat.ltb m x then x else m) = x)) as Hmax.
  { intros m x. destruct (PrimFloat.ltb m x) eqn:E.
    - split; [apply ltb_irrefl|right; reflexivity].
    - split; [exact E|left; reflexivity]. }
  cbv zeta. unfold Update.
  destruct (Event_eqb (AnnounceRequest.Event announce) STARTED);
    [|destruct ((AnnounceRequest.Uploaded announce <? Uploaded peer)
                || (AnnounceRequest.Downloaded announce <? Downloaded peer));
      [|destruct (negb (AnnounceRequest.Uploaded announce =? Uploaded peer));
        destruct (negb (AnnounceRequest.Downloaded announce =? Downloaded peer))]];
    cbn [fst SpeedUP SpeedDN SpeedUPMax SpeedDNMax];
    repeat split; apply Hmax.
Qed.

(** * The further properties at concrete inputs *)

Lemma active0_in_range : Peer_in_range active0.
Proof. constructor; vm_compute; split; congruence. Qed.

Lemma announce0_in_range : Announce_in_range (announce0 ANNOUNCE [10; 0; 0; 1] 600 2000000 4000).
Proof. constructor; vm_compute; split; congruence. Qed.

(** X2 at a concrete peer: stored 500 and 1048576, reported 600 and 2000000. *)
Lemma Update_deltas_exact_witness :
  snd (Update0 active0 (announce0 ANNOUNCE [10; 0; 0; 1] 600 2000000 4000) 3000 3001)
  = (100, 951424).
Proof.
  apply (proj1 (@Update_deltas_exact util.from_spec v4only cfg0 active0
                  (announce0 ANNOUNCE [10; 0; 0; 1] 600 2000000 4000) 3000 3001
                  (Uploaded_range _ active0_in_range)
                  (Downloaded_range _ active0_in_range)
                  (announce_Uploaded_range _ announce0_in_range)
                  (announce_Downloaded_range _ announce0_in_range)));
    vm_compute; congruence.
Defined.

(** X3 at a concrete run of three announces from a peer holding 500 and
    1048576: the deltas add up to 900 and 1951424. *)
Lemma Update_deltas_telescope_witness :
  sumZ (map fst (snd (UpdateAll0 active0
                        [(announce0 ANNOUNCE [10; 0; 0; 1] 600 2000000 4000, 3000, 3001);
                         (announce0 ANNOUNCE [10; 0; 0; 1] 600 2500000 3000, 4800, 4801);
                         (announce0 COMPLETED [10; 0; 0; 1] 1400 3000000 0, 6600, 6601)])))
  = 900
  /\ sumZ (map snd (snd (UpdateAll0 active0
                           [(announce0 ANNOUNCE [10; 0; 0; 1] 600 2000000 4000, 3000, 3001);
                            (announce0 ANNOUNCE [10; 0; 0; 1] 600 2500000 3000, 4800, 4801);
                            (announce0 COMPLETED [10; 0; 0; 1] 1400 3000000 0, 6600, 6601)])))
     = 1951424.
Proof.
  apply (@Update_deltas_telescope util.from_spec v4only cfg0 active0
           [(announce0 ANNOUNCE [10; 0; 0; 1] 600 2000000 4000, 3000, 3001);
            (announce0 ANNOUNCE [10; 0; 0; 1] 600 2500000 3000, 4800, 4801);
            (announce0 COMPLETED [10; 0; 0; 1] 1400 3000000 0, 6600, 6601)]
           (Uploaded_range _ active0_in_range) (Downloaded_range _ active0_in_range)).
  vm_compute. repeat split; congruence.
Defined.


(** X5 at a fresh peer announcing started, then twice more, hours apart. *)
Lemma Update_inactive_accrues_nothing_witness :
  Active (fst (UpdateAll0 fresh0
                 [(announce0 STARTED [10; 0; 0; 1] 0 0 5000, 1200, 1200);
                  (announce0 ANNOUNCE [10; 0; 0; 1] 100 2000 3000, 3000, 3000);
                  (announce0 COMPLETED [10; 0; 0; 1] 100 5000 0, 4800, 4800)])) = false
  /\ TotalTime (fst (UpdateAll0 fresh0
                       [(announce0 STARTED [10; 0; 0; 1] 0 0 5000, 1200, 1200);
                        (announce0 ANNOUNCE [10; 0; 0; 1] 100 2000 3000, 3000, 3000);
                        (announce0 COMPLETED [10; 0; 0; 1] 100 5000 0, 4800, 4800)]))
     = TotalTime fresh0.
Proof.
  apply (@Update_inactive_accrues_nothing util.from_spec v4only cfg0 fresh0). reflexivity.
Defined.

(** X10 at the address 10.0.0.1 in its 16-byte form and the port 6881. *)
Lemma Update_then_MakeCompactPeers_witness :
  MakeCompactPeers (H := v4only)
    [fst (Update0 fresh0 (announce0 STARTED (net.IPv4 10 0 0 1) 0 0 5000) 1200 1200)]
    "-AZ2060-000000000002"
  = [10; 0; 0; 1; 26; 225]
  /\ 256 * 26 + 225 = 6881.
Proof.
  apply (@Update_then_MakeCompactPeers util.from_spec v4only cfg0 fresh0
           (announce0 STARTED (net.IPv4 10 0 0 1) 0 0 5000) 1200 1200
           "-AZ2060-000000000002" 10 0 0 1);
    first [reflexivity | lia | discriminate].
Defined.

(** X12 at a reply that is an error: the default peer between two listed
    peers leaves their entries as they are. *)
Lemma MakePeer_default_not_listed_witness :
  MakeCompactPeers (H := v4only)
    ([at_minimum]
       ++ fst (MakePeer (H := redis0) None 7 "aaaaaaaaaaaaaaaaaaaa" "-AZ2060-000000000003" 1000 1000)
       :: [seeder0]) "-AZ2060-000000000002"
  = MakeCompactPeers (H := v4only) ([at_minimum] ++ [seeder0]) "-AZ2060-000000000002"
  /\ Active (fst (MakePeer (H := redis0) None 7 "aaaaaaaaaaaaaaaaaaaa"
                     "-AZ2060-000000000003" 1000 1000)) = false
  /\ IsHNR cfg0 (fst (MakePeer (H := redis0) None 7 "aaaaaaaaaaaaaaaaaaaa"
                         "-AZ2060-000000000003" 1000 1000)) = false.
Proof.
  apply (@MakePeer_default_not_listed redis0 v4only None 7 "aaaaaaaaaaaaaaaaaaaa"
           "-AZ2060-000000000003" 1000 1000 [at_minimum] [seeder0]
           "-AZ2060-000000000002" cfg0).
  left. exists tt. reflexivity.
Defined.

(** X16 at a whitelist and its reversal with a repeated entry. *)
Lemma IsValidClient_order_irrelevant_witness :
  IsValidClient {| Whitelist := ["-UT"; "-AZ"] |} tt "-AZ2060-000000000001"
  = IsValidClient {| Whitelist := ["-AZ"; "-UT"; "-AZ"] |} tt "-AZ2060-000000000001".
Proof.
  apply (@IsValidClient_order_irrelevant unit {| Whitelist := ["-UT"; "-AZ"] |}
           {| Whitelist := ["-AZ"; "-UT"; "-AZ"] |} tt "-AZ2060-000000000001").
  intros client_prefix. cbn [Whitelist In]. tauto.
Defined.

(** The compact list of two peers with IPv4 addresses has twelve bytes. *)
Lemma MakeCompactPeers_length_ipv4_witness :
  length (MakeCompactPeers (H := v4only) [at_minimum; seeder0; fresh0] "-AZ2060-000000000002")
  = (6 * 2)%nat.
Proof.
  apply (@MakeCompactPeers_length_ipv4 v4only [at_minimum; seeder0; fresh0]
           "-AZ2060-000000000002").
  intros p [<-|[<-|[<-|[]]]] Hlisted; vm_compute in Hlisted |- *; congruence.
Defined.

(** X21 at the concrete tracker: three requested infohashes, three torrent
    lookups in the order of the request. *)
Lemma scrape_lookups_witness :
  List.filter (@is_torrents_get model0 decls0) (snd (run (world0 reg0) (scrape uri3) []))
  = map (fun ihStr => @TorrentsGet model0 decls0 (copy_bytes 20 ihStr)) [ihA; ihB; ihC]
  /\ Forall (@limit_100 model0 decls0) (snd (run (world0 reg0) (scrape uri3) []))
  /\ (length (List.filter (@is_lookup model0 decls0) (snd (run (world0 reg0) (scrape uri3) [])))
      <= 2 * 3)%nat.
Proof.
  exact (@scrape_lookups model0 decls0 (list Written) (world0 reg0) uri3
           {| InfoHashes := [ihA; ihB; ihC] |} [] eq_refl eq_refl).
Defined.

(** X22 at the concrete tracker: the same three infohashes in another
    order, one of them twice, give the same dictionary. *)
Lemma scrape_response_order_irrelevant_witness :
  List.filter (@is_encode model0 decls0) (snd (run (world0 reg0) (scrape uri3) []))
  = List.filter (@is_encode model0 decls0) (snd (run (world0 reg0) (scrape uri4) [])).
Proof.
  apply (@scrape_response_order_irrelevant model0 decls0 (list Written) (world0 reg0)
           (fun ih => reg_torrents reg0 !! ih)
           (fun ih => take 100 <$> reg_swarms reg0 !! ih)
           (fun ih w => eq_refl) (fun ih w => eq_refl)
           uri3 uri4 {| InfoHashes := [ihA; ihB; ihC] |}
           {| InfoHashes := [ihB; ihA; ihC; ihA] |} [] []);
    try reflexivity.
  - discriminate.
  - intros ihStr. cbn [InfoHashes In]. tauto.
  - intros s s' Hs Hs' Hkey. cbn [InfoHashes In] in Hs, Hs'.
    destruct Hs as [<-|[<-|[<-|[]]]]; destruct Hs' as [<-|[<-|[<-|[]]]];
      first [reflexivity | vm_compute in Hkey; discriminate Hkey].
Defined.
